(** * d1-rest: the REST-to-SQL gateway of [src/rest.ts] and [src/index.ts]

    A shallow embedding of the request-to-SQL compiler ([handleGet],
    [handlePost], [handleUpdate], [handleDelete]), of the dispatcher
    [handleRest], of the raw query route and of the bearer-token
    middleware, followed by the properties the specification states
    about them.

    Conventions of the embedding.
    - A JavaScript string is a [string]: a sequence of 8-bit characters,
      read as the UTF-16 code units below 256.  The only string
      operations the program uses are written out in [Module Js];
      [toUpperCase], whose result depends on code units above 255, is
      defined on sequences of code units of any value.
    - A JavaScript value is a [Js.value].  Objects are association lists
      in own-property enumeration order, which is what [Object.keys] and
      [Object.values] walk.
    - Calls on a D1 database are recorded in a log of [Js.db_call]s; what
      the database answers is a parameter of the development. *)

From Stdlib Require Import String Ascii List Bool Arith NArith ZArith QArith Lia.
Import ListNotations.
Close Scope Q_scope.
Open Scope string_scope.
Set Warnings "-register-all".

(** ** JavaScript primitives used by the program *)
Module Js.

(** *** Characters and strings *)

Definition code (c : ascii) : nat := nat_of_ascii c.

Definition between (lo hi : nat) (c : ascii) : bool :=
  (lo <=? code c)%nat && (code c <=? hi)%nat.

Definition is_lower (c : ascii) : bool := between 97 122 c.
Definition is_upper (c : ascii) : bool := between 65 90 c.
Definition is_digit (c : ascii) : bool := between 48 57 c.

(** [remove_all bad s]: [s.replace(/<class>/g, '')] for a one-character
    class, every matching character is dropped. *)
Fixpoint remove_all (bad : ascii -> bool) (s : string) : string :=
  match s with
  | EmptyString => EmptyString
  | String c s' =>
      if bad c then remove_all bad s' else String c (remove_all bad s')
  end.

(** [Array.prototype.join] on an array of strings. *)
Fixpoint join (sep : string) (l : list string) : string :=
  match l with
  | [] => ""
  | [x] => x
  | x :: rest => x ++ sep ++ join sep rest
  end.

(** [s.split(sep)] for a one-character separator. *)
Fixpoint split (sep : ascii) (s : string) : list string :=
  match s with
  | EmptyString => [""]
  | String c s' =>
      if Ascii.eqb c sep then "" :: split sep s'
      else match split sep s' with
           | [] => [String c ""]
           | h :: t => String c h :: t
           end
  end.

(** Truthiness of a string: only the empty string is falsy. *)
Definition truthy_string (s : string) : bool :=
  match s with EmptyString => false | _ => true end.

(** [startsWith] and [substring(n)]. *)
Fixpoint startsWith (p s : string) : bool :=
  match p, s with
  | EmptyString, _ => true
  | String a p', String b s' => Ascii.eqb a b && startsWith p' s'
  | String _ _, EmptyString => false
  end.

Fixpoint substring_from (n : nat) (s : string) : string :=
  match n, s with
  | O, _ => s
  | S n', String _ s' => substring_from n' s'
  | S _, EmptyString => EmptyString
  end.

(** A string as its UTF-16 code units. *)
Definition units (s : string) : list N :=
  map N_of_ascii (list_ascii_of_string s).

Fixpoint same_units (a b : list N) : bool :=
  match a, b with
  | [], [] => true
  | x :: a', y :: b' => N.eqb x y && same_units a' b'
  | _, _ => false
  end.

(** The upper case of one code unit, as [toUpperCase] gives it.  The
    letters of ASCII and of Latin-1 go to their capitals, sharp s (223)
    to two letters; dotless i (305) and long s (383) go to the ASCII
    capitals I and S, and the ligatures 64256 to 64262 to the ASCII
    letters they are made of.  These are the code units whose upper
    case is made of ASCII letters only.  Every other code unit is kept:
    its upper case, when it has one of its own, contains a code unit
    above 127 as the code unit itself is, so a comparison of the result
    with an ASCII string is not affected. *)
Definition upper_unit (u : N) : list N :=
  if ((97 <=? u) && (u <=? 122))%N then [u - 32]%N
  else if (u =? 181)%N then [924%N]
  else if (u =? 223)%N then [83%N; 83%N]
  else if ((224 <=? u) && (u <=? 254) && negb (u =? 247))%N then [u - 32]%N
  else if (u =? 255)%N then [376%N]
  else if (u =? 305)%N then [73%N]
  else if (u =? 383)%N then [83%N]
  else if (u =? 64256)%N then [70%N; 70%N]
  else if (u =? 64257)%N then [70%N; 73%N]
  else if (u =? 64258)%N then [70%N; 76%N]
  else if (u =? 64259)%N then [70%N; 70%N; 73%N]
  else if (u =? 64260)%N then [70%N; 70%N; 76%N]
  else if (u =? 64261)%N then [83%N; 84%N]
  else if (u =? 64262)%N then [83%N; 84%N]
  else [u].

Definition toUpperCase (s : list N) : list N := flat_map upper_unit s.

(** Number of occurrences of a character. *)
Fixpoint count_char (c : ascii) (s : string) : nat :=
  match s with
  | EmptyString => 0
  | String d s' => (if Ascii.eqb d c then 1 else 0) + count_char c s'
  end.

(** *** Values *)

(** JavaScript values as the program meets them: what [JSON.parse]
    builds, [undefined], the NaN that [parseInt] may return, and the
    members every object inherits from [Object.prototype].  A finite
    number other than minus zero is kept as the rational it denotes;
    minus zero and the two infinities have constructors of their own.
    The program never computes with numbers, it tests them for
    truthiness and passes them on. *)
Inductive value : Type :=
| VUndefined
| VNull
| VBool (b : bool)
| VNum (q : Q)
| VNaN
| VStr (s : string)
| VArr (items : list value)
| VObj (props : list (string * value))
| VInherited (name : string)
| VNegZero
| VInfinity (negative : bool).

Definition truthy (v : value) : bool :=
  match v with
  | VUndefined | VNull | VNaN | VNegZero => false
  | VBool b => b
  | VNum q => negb (Qeq_bool q 0)
  | VStr s => truthy_string s
  | VArr _ | VObj _ | VInherited _ | VInfinity _ => true
  end.

Definition typeof (v : value) : string :=
  match v with
  | VUndefined => "undefined"
  | VNull | VArr _ | VObj _ => "object"
  | VBool _ => "boolean"
  | VNum _ | VNaN | VNegZero | VInfinity _ => "number"
  | VStr _ => "string"
  | VInherited name => if name =? "__proto__" then "object" else "function"
  end.

Definition isArray (v : value) : bool :=
  match v with VArr _ => true | _ => false end.

(** [Object.keys] and [Object.values] of a plain object. *)
Definition keys (props : list (string * value)) : list string := map fst props.
Definition values (props : list (string * value)) : list value := map snd props.

Fixpoint own_property (props : list (string * value)) (k : string) : option value :=
  match props with
  | [] => None
  | (k', v) :: rest => if k' =? k then Some v else own_property rest k
  end.

(** The property names of [Object.prototype]. *)
Definition object_prototype : list string :=
  [ "constructor"; "__defineGetter__"; "__defineSetter__"; "hasOwnProperty";
    "__lookupGetter__"; "__lookupSetter__"; "isPrototypeOf";
    "propertyIsEnumerable"; "toString"; "valueOf"; "__proto__";
    "toLocaleString" ].

(** [data[k]] on a plain object: the own property, else the inherited
    member, else [undefined]. *)
Definition get_property (props : list (string * value)) (k : string) : value :=
  match own_property props k with
  | Some v => v
  | None => if existsb (String.eqb k) object_prototype
            then VInherited k else VUndefined
  end.

(** *** parseInt *)

Definition is_space (c : ascii) : bool :=
  between 9 13 c || Nat.eqb (code c) 32 || Nat.eqb (code c) 160.

Fixpoint trim_start (s : string) : string :=
  match s with
  | EmptyString => EmptyString
  | String c s' => if is_space c then trim_start s' else s
  end.

Definition digit_value (radix : nat) (c : ascii) : option nat :=
  let d := if is_digit c then Some (code c - 48)
           else if is_lower c then Some (code c - 87)
           else if is_upper c then Some (code c - 55)
           else None in
  match d with
  | Some n => if (n <? radix)%nat then Some n else None
  | None => None
  end.

(** The integer denoted by the longest prefix of digits; [None] when
    there is no digit at all. *)
Fixpoint read_digits (radix : nat) (s : string) (acc : option Z) : option Z :=
  match s with
  | EmptyString => acc
  | String c s' =>
      match digit_value radix c with
      | None => acc
      | Some d =>
          let so_far := match acc with Some n => n | None => 0%Z end in
          read_digits radix s' (Some (Z.of_nat radix * so_far + Z.of_nat d)%Z)
      end
  end.

(** The double nearest to a natural number that is too large for a
    double to hold exactly: 53 significant bits, a tie going to the even
    one. *)
Definition round_to_double (n : Z) : Z :=
  if (n <? 2 ^ 53)%Z then n
  else
    let e := (Z.log2 n - 52)%Z in
    let q := Z.shiftr n e in
    let r := (n - Z.shiftl q e)%Z in
    let half := Z.shiftl 1 (e - 1) in
    let q' := if (half <? r)%Z || ((r =? half)%Z && Z.odd q)
              then (q + 1)%Z else q in
    Z.shiftl q' e.

(** The Number that [parseInt] returns for the digits that denote [n],
    with or without a minus sign in front: minus zero, an infinity from
    2^1024 on, the nearest double otherwise. *)
Definition to_number (negative : bool) (n : Z) : value :=
  if (n =? 0)%Z then (if negative then VNegZero else VNum (inject_Z 0))
  else
    let m := round_to_double n in
    if (2 ^ 1024 <=? m)%Z then VInfinity negative
    else VNum (inject_Z (if negative then - m else m)).

(** [parseInt(s)] with no radix argument: leading white space, an
    optional sign, an optional [0x] prefix, then digits; the integer
    they denote is rounded to a double. *)
Definition parseInt (s : string) : value :=
  let s1 := trim_start s in
  let '(negative, s2) :=
    match s1 with
    | String "-" r => (true, r)
    | String "+" r => (false, r)
    | _ => (false, s1)
    end in
  let '(radix, s3) :=
    match s2 with
    | String "0" (String x r) =>
        if Ascii.eqb x "x" || Ascii.eqb x "X" then (16, r) else (10, s2)
    | _ => (10, s2)
    end in
  match read_digits radix s3 None with
  | None => VNaN
  | Some n => to_number negative n
  end.

(** *** Exceptions and the D1 interface *)

(** Errors the engine itself raises.  The text of their [message] is the
    engine's, see [Engine]. *)
Inductive runtime_error : Type :=
| UninitialisedBinding (name : string)
| DestructureNullish (name : string)
| NotIterable.

(** A [const] binding of a block: until its declaration has run, a read
    raises a ReferenceError. *)
Inductive binding (A : Type) : Type :=
| Uninitialised
| Initialised (a : A).
Arguments Uninitialised {A}.
Arguments Initialised {A} a.

Definition read_binding {A} (name : string) (b : binding A) : runtime_error + A :=
  match b with
  | Uninitialised => inl (UninitialisedBinding name)
  | Initialised a => inr a
  end.

(** The three D1 bindings of [Env]. *)
Inductive database : Type := MCW_DB | UTILITY_DB | CATALOG_DB.

Inductive exec_mode : Type := All | Run.

(** The calls a handler makes on a D1 database, in order:
    [db.prepare(query)], [.bind(...params)], then [.all()] or [.run()]. *)
Inductive db_call : Type :=
| Prepare (db : database) (query : value)
| Bind (params : list value)
| Exec (mode : exec_mode).

(** What lies outside the program: the database's answer to a bound
    statement ([inl] is the message of the error it throws), whether
    [bind] rejects its arguments, and the engine's message texts. *)
Record Engine : Type := {
  d1_bind : list value -> option string;
  d1_exec : database -> value -> list value -> exec_mode -> string + value;
  error_message : runtime_error -> string
}.

(** [c.json(body, status)]. *)
Inductive response : Type :=
| Json (body : value) (status : Z).

(** [c.json({ error: msg }, status)]. *)
Definition json_error (msg : string) (status : Z) : response :=
  Json (VObj [("error", VStr msg)]) status.

End Js.

(** ** [src/rest.ts] *)
Module Rest.
Import Js.

(** The class [a-zA-Z0-9_] of the regular expression. *)
Definition word_char (c : ascii) : bool :=
  is_lower c || is_upper c || is_digit c || Ascii.eqb c "_".

Definition sanitizeIdentifier (identifier : string) : string :=
  remove_all (fun c => negb (word_char c)) identifier.

Definition sanitizeKeyword (identifier : string) : string :=
  "`" ++ sanitizeIdentifier identifier ++ "`".

(** What the four handlers return: [{status, message, params?}]. *)
Record result : Type := {
  status : Z;
  message : string;
  params : option (list value)
}.

(** [URLSearchParams]: the decoded pairs in order; [get] is the first
    value of a name. *)
Definition URLSearchParams : Type := list (string * string).

Fixpoint get (searchParams : URLSearchParams) (name : string) : option string :=
  match searchParams with
  | [] => None
  | (k, v) :: rest => if k =? name then Some v else get rest name
  end.

Definition includes (l : list string) (k : string) : bool :=
  existsb (String.eqb k) l.

Definition reserved : list string := ["sort_by"; "order"; "limit"; "offset"].

(** One turn of the loop over [searchParams.entries()]: the two arrays
    [conditions] and [params] grow together. *)
Definition filter_step (acc : list string * list value) (entry : string * string)
  : list string * list value :=
  let '(conditions, params) := acc in
  let '(key, val) := entry in
  if includes reserved key then acc
  else ((conditions ++ [(sanitizeIdentifier key ++ " = ?")%string])%list,
        (params ++ [VStr val])%list).

(** [order?.toUpperCase() === 'DESC' ? 'DESC' : 'ASC'], for an [order]
    of any code units. *)
Definition direction_of (order : option (list N)) : string :=
  match order with
  | Some o => if same_units (toUpperCase o) (units "DESC") then "DESC" else "ASC"
  | None => "ASC"
  end.

(** [searchParams.get('order')?.toUpperCase() === 'DESC' ? 'DESC' : 'ASC'] *)
Definition direction (order : option string) : string :=
  direction_of (option_map units order).

(** The state of [handleGet] while it builds the statement. *)
Definition building : Type := string * list value.

Definition add_where (conditions : list string) (b : building) : building :=
  let '(query, params) := b in
  if (0 <? length conditions)%nat
  then (query ++ " WHERE " ++ join " AND " conditions, params)
  else b.

Definition add_sorting (searchParams : URLSearchParams) (b : building) : building :=
  let '(query, params) := b in
  match get searchParams "sort_by" with
  | Some sortBy =>
      if truthy_string sortBy
      then (query ++ " ORDER BY " ++ sanitizeIdentifier sortBy ++ " "
                  ++ direction (get searchParams "order"), params)
      else b
  | None => b
  end.

Definition add_pagination (searchParams : URLSearchParams) (b : building) : building :=
  let '(query, params) := b in
  match get searchParams "limit" with
  | Some limit =>
      if truthy_string limit then
        let query := query ++ " LIMIT ?" in
        let params := (params ++ [parseInt limit])%list in
        match get searchParams "offset" with
        | Some offset =>
            if truthy_string offset
            then (query ++ " OFFSET ?", (params ++ [parseInt offset])%list)
            else (query, params)
        | None => (query, params)
        end
      else b
  | None => b
  end.

(** [handleGet].  Nothing in its [try] block throws on strings, so the
    [catch] branch (status 500) is never taken. *)
Definition handleGet (searchParams : URLSearchParams) (tableName : string)
    (id : option string) : result :=
  let table := sanitizeKeyword tableName in
  let query := "SELECT * FROM " ++ table in
  let start :=
    match id with
    | Some i => if truthy_string i then (["id = ?"], [VStr i]) else ([], [])
    | None => ([], [])
    end in
  let '(conditions, params) := fold_left filter_step searchParams start in
  let '(query, params) :=
    add_pagination searchParams
      (add_sorting searchParams (add_where conditions (query, params))) in
  {| status := 200; message := query; params := Some params |}.

(** [!data || typeof data !== 'object' || Array.isArray(data)] *)
Definition invalid_data (data : value) : bool :=
  negb (truthy data) || negb (typeof data =? "object") || isArray data.

Definition invalid_data_format : result :=
  {| status := 400; message := "Invalid data format"; params := None |}.

(** [handlePost]; [data] is what [c.req.json()] resolved to.  A JSON
    value that passes the test is a plain object, hence the last
    branch. *)
Definition handlePost (tableName : string) (data : value) : result :=
  let table := sanitizeKeyword tableName in
  if invalid_data data then invalid_data_format
  else match data with
  | VObj props =>
      let columns := map sanitizeIdentifier (keys props) in
      let placeholders := join ", " (map (fun _ => "?") columns) in
      let query := "INSERT INTO " ++ table ++ " (" ++ join ", " columns
                   ++ ") VALUES (" ++ placeholders ++ ")" in
      let params := map (fun col => get_property props col) columns in
      {| status := 200; message := query; params := Some params |}
  | _ => invalid_data_format
  end.

(** [handleUpdate].  As in [handlePost], a JSON value that passes the
    test is a plain object, hence the last branch. *)
Definition handleUpdate (tableName : string) (id : string) (data : value) : result :=
  let table := sanitizeKeyword tableName in
  if invalid_data data then invalid_data_format
  else match data with
  | VObj props =>
      let setColumns :=
        join ", " (map (fun col => col ++ " = ?")
                       (map sanitizeIdentifier (keys props))) in
      let query := "UPDATE " ++ table ++ " SET " ++ setColumns ++ " WHERE id = ?" in
      let params := (values props ++ [VStr id])%list in
      {| status := 200; message := query; params := Some params |}
  | _ => invalid_data_format
  end.

(** [handleDelete]: the returned object has no [params] field. *)
Definition handleDelete (tableName : string) (id : string) : result :=
  let table := sanitizeKeyword tableName in
  {| status := 200; message := "DELETE FROM " ++ table ++ " WHERE id = ?";
     params := None |}.

(** The [switch (db_name)] that each case of [handleRest] repeats. *)
Definition select_db (db_name : string) : option database :=
  if db_name =? "mcw_db" then Some MCW_DB
  else if db_name =? "utility_db" then Some UTILITY_DB
  else if db_name =? "catalog_db" then Some CATALOG_DB
  else None.

Definition unknown_database : response := json_error "Unknown database name" 400.

(** A request as the handlers read it.  [body] is the outcome of
    [c.req.json()]: the parsed value, or the message of the error it
    rejects with. *)
Record request : Type := {
  method : string;
  pathname : string;
  searchParams : URLSearchParams;
  authorization : option string;
  body : string + value
}.

(** A handler either answers or lets an exception escape to the
    framework. *)
Inductive outcome : Type :=
| Responds (r : response)
| Rejects (msg : string).

(** [db.prepare(query).bind(...params).all()] (or [.run()]): the calls
    made and the result or the error message. *)
Definition run_statement (E : Engine) (db : database) (query : value)
    (params : list value) (mode : exec_mode) : (string + value) * list db_call :=
  match d1_bind E params with
  | Some msg => (inl msg, [Prepare db query; Bind params])
  | None => (d1_exec E db query params mode,
             [Prepare db query; Bind params; Exec mode])
  end.

(** [params || []] *)
Definition or_empty (params : option (list value)) : list value :=
  match params with Some l => l | None => [] end.

Definition path_parts (pathname : string) : list string :=
  filter truthy_string (split "/" pathname).

Section Dispatch.
Variable E : Engine.

Definition rest_get (req : request) (db_name tableName : string) (id : option string)
  : outcome * list db_call :=
  let result := handleGet (searchParams req) tableName id in
  if negb (status result =? 200)%Z
  then (Responds (json_error (message result) (status result)), [])
  else
    match select_db db_name with
    | None => (Responds unknown_database, [])
    | Some db =>
        match run_statement E db (VStr (message result))
                            (or_empty (params result)) All with
        | (inr results, calls) => (Responds (Json results 200), calls)
        | (inl msg, calls) => (Responds (json_error msg 500), calls)
        end
    end.

Definition rest_post (req : request) (db_name tableName : string)
  : outcome * list db_call :=
  match body req with
  | inl msg => (Rejects msg, [])
  | inr data =>
      let postResult := handlePost tableName data in
      if negb (status postResult =? 200)%Z
      then (Responds (json_error (message postResult) (status postResult)), [])
      else
        match select_db db_name with
        | None => (Responds unknown_database, [])
        | Some db =>
            match run_statement E db (VStr (message postResult))
                                (or_empty (params postResult)) Run with
            | (inr result, calls) =>
                (Responds (Json (VObj [("message", VStr "Resource created successfully");
                                       ("data", result)]) 201), calls)
            | (inl msg, calls) => (Responds (json_error msg 500), calls)
            end
        end
  end.

(** The PUT/PATCH case.  Its [bind] call names [params], which is the
    [const] that case 'GET' declares: the [switch] body is one block,
    and control entered it at case 'PUT', past that declaration.  The
    binding is therefore uninitialised when the arguments of [bind] are
    evaluated, after [prepare] has been called. *)
Definition rest_update (req : request) (db_name tableName : string) (id : option string)
  : outcome * list db_call :=
  match id with
  | None => (Responds (json_error "ID is required for updates" 400), [])
  | Some i =>
      if negb (truthy_string i)
      then (Responds (json_error "ID is required for updates" 400), [])
      else
        match body req with
        | inl msg => (Rejects msg, [])
        | inr data =>
            let patchResult := handleUpdate tableName i data in
            if negb (status patchResult =? 200)%Z
            then (Responds (json_error (message patchResult) (status patchResult)), [])
            else
              match select_db db_name with
              | None => (Responds unknown_database, [])
              | Some db =>
                  let params : binding (option (list value)) := Uninitialised in
                  match read_binding "params" params with
                  | inl e => (Responds (json_error (error_message E e) 500),
                              [Prepare db (VStr (message patchResult))])
                  | inr p =>
                      match run_statement E db (VStr (message patchResult))
                                          (or_empty p) All with
                      | (inr _, calls) =>
                          (Responds (Json (VStr "Resource updated successfully") 200), calls)
                      | (inl msg, calls) => (Responds (json_error msg 500), calls)
                      end
                  end
              end
        end
  end.

Definition rest_delete (req : request) (db_name tableName : string) (id : option string)
  : outcome * list db_call :=
  match id with
  | None => (Responds (json_error "ID is required for deletion" 400), [])
  | Some i =>
      if negb (truthy_string i)
      then (Responds (json_error "ID is required for deletion" 400), [])
      else
        let deleteResult := handleDelete tableName i in
        if negb (status deleteResult =? 200)%Z
        then (Responds (json_error (message deleteResult) (status deleteResult)), [])
        else
          match select_db db_name with
          | None => (Responds unknown_database, [])
          | Some db =>
              match run_statement E db (VStr (message deleteResult)) [] Run with
              | (inr _, calls) =>
                  (Responds (Json (VObj [("message", VStr "Resource deleted successfully")])
                                  200), calls)
              | (inl msg, calls) => (Responds (json_error msg 500), calls)
              end
          end
  end.

(** [handleRest]: the answer and the database calls made on the way. *)
Definition handleRest (req : request) : outcome * list db_call :=
  let pathParts := path_parts (pathname req) in
  if (length pathParts <? 3)%nat
  then (Responds (json_error
          "Invalid path. Expected format: /rest/{db_name}/{tableName}/{id?}" 400), [])
  else
    let db_name := nth 1 pathParts "" in
    let tableName := nth 2 pathParts "" in
    let id := nth_error pathParts 3 in
    if method req =? "GET" then rest_get req db_name tableName id
    else if method req =? "POST" then rest_post req db_name tableName
    else if (method req =? "PUT") || (method req =? "PATCH")
         then rest_update req db_name tableName id
    else if method req =? "DELETE" then rest_delete req db_name tableName id
    else (Responds (json_error "Method not allowed" 405), []).

End Dispatch.

End Rest.

(** ** [src/index.ts] *)
Module Index.
Import Js Rest.

(** The middleware either answers itself or calls [next()]. *)
Inductive auth : Type :=
| Denied (r : response)
| Next.

Definition unauthorized : response := json_error "Unauthorized" 401.

(** [authHeader.startsWith('Bearer ') ? authHeader.substring(7) : authHeader] *)
Definition token_of (authHeader : string) : string :=
  if startsWith "Bearer " authHeader then substring_from 7 authHeader
  else authHeader.

Definition authMiddleware (secret : string) (authHeader : option string) : auth :=
  match authHeader with
  | None => Denied unauthorized
  | Some h =>
      if negb (truthy_string h) then Denied unauthorized
      else if negb (token_of h =? secret) then Denied unauthorized
      else Next
  end.

(** [const { query, params } = body]: a TypeError on [null], and on
    anything but a plain object neither name is a property. *)
Definition destructure (body : value) : runtime_error + value * value :=
  match body with
  | VNull | VUndefined => inl (DestructureNullish "query")
  | VObj props => inr (get_property props "query", get_property props "params")
  | _ => inr (VUndefined, VUndefined)
  end.

(** The argument list [...(params || [])]: arrays and strings are
    iterable, any other truthy value is not. *)
Definition spread (params : value) : option (list value) :=
  if negb (truthy params) then Some []
  else match params with
       | VArr items => Some items
       | VStr s => Some (map (fun c => VStr (String c "")) (list_ascii_of_string s))
       | _ => None
       end.

(** What the framework does and the program does not: whether the
    [cors()] middleware answers a request by itself (it does for a
    preflight), whether a registered path pattern takes a path, and the
    answer to a request that no route takes. *)
Record Hono : Type := {
  cors : request -> option response;
  matches : string -> string -> bool;
  not_found : response
}.

Section Routes.
Variable E : Engine.

(** The handler of [app.post('/query/*', ...)]; its whole body is in a
    [try], every exception becomes a 500. *)
Definition raw_query (req : request) : outcome * list db_call :=
  let pathParts := path_parts (pathname req) in
  if (length pathParts <? 2)%nat
  then (Responds (json_error "Invalid path. Expected format: /rest/{db_name}" 400), [])
  else
    let db_name := nth 1 pathParts "" in
    match body req with
    | inl msg => (Responds (json_error msg 500), [])
    | inr b =>
        match destructure b with
        | inl e => (Responds (json_error (error_message E e) 500), [])
        | inr (query, params) =>
            if negb (truthy query)
            then (Responds (json_error "Query is required" 400), [])
            else
              match select_db db_name with
              | None => (Responds unknown_database, [])
              | Some db =>
                  match spread params with
                  | None => (Responds (json_error (error_message E NotIterable) 500),
                             [Prepare db query])
                  | Some args =>
                      match run_statement E db query args All with
                      | (inr results, calls) => (Responds (Json results 200), calls)
                      | (inl msg, calls) => (Responds (json_error msg 500), calls)
                      end
                  end
              end
        end
    end.

(** A route registered behind [authMiddleware]. *)
Definition protected (secret : string) (handler : request -> outcome * list db_call)
    (req : request) : outcome * list db_call :=
  match authMiddleware secret (authorization req) with
  | Denied r => (Responds r, [])
  | Next => handler req
  end.

(** [fetch]: the application.  [cors()] is registered first, on every
    path, and may answer by itself; then comes the route [/rest/*], for
    all methods, and the route [/query/*], for POST; a request that no
    route takes is answered by the framework. *)
Definition fetch (H : Hono) (secret : string) (req : request)
  : outcome * list db_call :=
  match cors H req with
  | Some r => (Responds r, [])
  | None =>
      if matches H "/rest/*" (pathname req)
      then protected secret (handleRest E) req
      else if (method req =? "POST") && matches H "/query/*" (pathname req)
      then protected secret raw_query req
      else (Responds (not_found H), [])
  end.

End Routes.

End Index.

(** ** The vocabulary of the specification *)
Module Spec.
Import Js Rest Index.

(** An ASCII letter, a digit or the underscore. *)
Definition safe_character (c : ascii) : Prop :=
  In c (list_ascii_of_string
          "abcdefghijklmnopqrstuvwxyzABCDEFGHIJKLMNOPQRSTUVWXYZ0123456789_").

(** Quote characters, white space and SQL punctuation. *)
Definition dangerous : list ascii :=
  ascii_of_nat 34 :: ascii_of_nat 9 :: ascii_of_nat 10 :: ascii_of_nat 13
  :: list_ascii_of_string "'` ;,()-*=/\%.".

(** Equality up to the case of ASCII letters. *)
Definition fold_case (c : ascii) : ascii :=
  if is_upper c then ascii_of_nat (code c + 32) else c.

Fixpoint same_ignoring_case (s t : string) : bool :=
  match s, t with
  | EmptyString, EmptyString => true
  | String a s', String b t' =>
      Ascii.eqb (fold_case a) (fold_case b) && same_ignoring_case s' t'
  | _, _ => false
  end.

(** The same on code units: equality with an ASCII string up to the
    case of ASCII letters. *)
Definition fold_unit (u : N) : N :=
  if ((65 <=? u) && (u <=? 90))%N then (u + 32)%N else u.

Definition caseless_units (o : list N) (t : string) : bool :=
  same_units (map fold_unit o) (map fold_unit (units t)).

(** The values of [order] that give DESC: four code units, d, e, s and
    c in either case, the third being possibly the long s (383). *)
Definition desc_units (o : list N) : bool :=
  match o with
  | [a; b; c; d] =>
      ((a =? 100) || (a =? 68))%N && ((b =? 101) || (b =? 69))%N &&
      ((c =? 115) || (c =? 83) || (c =? 383))%N && ((d =? 99) || (d =? 67))%N
  | _ => false
  end.

(** The number of [?] placeholders of a statement. *)
Definition placeholders (sql : string) : nat := count_char "?" sql.

(** The entries of a query string that are filters. *)
Definition filters (q : URLSearchParams) : URLSearchParams :=
  filter (fun e => negb (includes reserved (fst e))) q.

(** A query string with its [limit] and [offset] entries removed. *)
Definition without_pagination (q : URLSearchParams) : URLSearchParams :=
  filter (fun e => negb ((fst e =? "limit") || (fst e =? "offset"))) q.

Definition endsWith (suffix s : string) : bool :=
  (String.length suffix <=? String.length s)%nat &&
  (substring (String.length s - String.length suffix) (String.length suffix) s
   =? suffix).

(** The closed form of the statement a GET compiles to. *)
Definition id_filter (id : option string) : list (string * value) :=
  match id with
  | Some i => if truthy_string i then [("id = ?", VStr i)] else []
  | None => []
  end.

Definition where_clause (conditions : list string) : string :=
  match conditions with
  | [] => ""
  | _ => " WHERE " ++ join " AND " conditions
  end.

Definition order_clause (q : URLSearchParams) : string :=
  match get q "sort_by" with
  | Some sortBy =>
      if truthy_string sortBy
      then " ORDER BY " ++ sanitizeIdentifier sortBy ++ " "
           ++ (match get q "order" with
               | Some o => if same_ignoring_case o "desc" then "DESC" else "ASC"
               | None => "ASC"
               end)
      else ""
  | None => ""
  end.

Definition page (q : URLSearchParams) : string * list value :=
  match get q "limit" with
  | Some l =>
      if truthy_string l then
        match get q "offset" with
        | Some o => if truthy_string o
                    then (" LIMIT ? OFFSET ?", [parseInt l; parseInt o])
                    else (" LIMIT ?", [parseInt l])
        | None => (" LIMIT ?", [parseInt l])
        end
      else ("", [])
  | None => ("", [])
  end.

Definition filter_condition (e : string * string) : string :=
  sanitizeIdentifier (fst e) ++ " = ?".

Definition filter_value (e : string * string) : value := VStr (snd e).

(** The statement of a GET, written at once: the id filter, one
    equality per filter entry, then the clauses. *)
Definition select_statement (q : URLSearchParams) (t : string)
    (id : option string) : result :=
  {| status := 200;
     message := "SELECT * FROM " ++ sanitizeKeyword t
                ++ where_clause (map fst (id_filter id)
                                 ++ map filter_condition (filters q))%list
                ++ order_clause q ++ fst (page q);
     params := Some (map snd (id_filter id)
                     ++ map filter_value (filters q) ++ snd (page q))%list |}.

(** A JSON body that is not a single non-array object: [null], an
    array or a primitive. *)
Definition not_an_object (data : value) : Prop :=
  match data with
  | VNull | VArr _ | VBool _ | VNum _ | VStr _ | VNegZero | VInfinity _ => True
  | _ => False
  end.

(** An engine that accepts every statement, for closed examples. *)
Definition quiet : Engine :=
  {| d1_bind := fun _ => None;
     d1_exec := fun _ _ _ _ => inr (VObj [("success", VBool true)]);
     error_message := fun e =>
       match e with
       | UninitialisedBinding name =>
           "Cannot access '" ++ name ++ "' before initialization"
       | DestructureNullish name =>
           "Cannot destructure property '" ++ name ++ "' of 'body' as it is null."
       | NotIterable => "object is not iterable"
       end |}.

(** The pagination claim as the specification words it: whenever the
    query string contains [limit], the statement ends with the LIMIT
    placeholder, followed by the OFFSET one when [offset] is there too. *)
Definition pagination_as_stated (q : URLSearchParams) (t : string)
    (id : option string) : Prop :=
  forall l, get q "limit" = Some l ->
    match get q "offset" with
    | Some o =>
        endsWith " LIMIT ? OFFSET ?" (message (handleGet q t id)) = true
    | None =>
        endsWith " LIMIT ?" (message (handleGet q t id)) = true
    end.

(** The sorting claim as the specification words it: the direction is
    DESC exactly when [order] is there and equals [desc] up to case. *)
Definition direction_as_stated (order : option (list N)) : Prop :=
  direction_of order = "DESC" <->
  exists o, order = Some o /\ caseless_units o "desc" = true.

(** The database claim as the specification words it: an unknown [{db}]
    segment always gives the 400 "Unknown database name", and no call on
    a database. *)
Definition unknown_db_as_stated (E : Engine) (req : request) : Prop :=
  forall db_name, nth_error (path_parts (pathname req)) 1 = Some db_name ->
    select_db db_name = None ->
    handleRest E req = (Responds unknown_database, []).

(** The middleware claim as the specification words it: 401 exactly when
    the header is absent or the derived token differs from the secret. *)
Definition auth_as_stated (secret : string) (authHeader : option string) : Prop :=
  authMiddleware secret authHeader = Denied unauthorized <->
  (authHeader = None \/
   exists h, authHeader = Some h /\ token_of h <> secret).

(** Requests used as examples. *)
Definition request_of (m path : string) (b : string + value) : request :=
  {| method := m; pathname := path; searchParams := [];
     authorization := None; body := b |}.

Definition patch_age : request :=
  request_of "PATCH" "/rest/mcw_db/users/123"
             (inr (VObj [("age", VNum (inject_Z 31))])).

Definition delete_user : request :=
  request_of "DELETE" "/rest/mcw_db/users/123" (inl "Unexpected end of JSON input").

Definition post_null_elsewhere : request :=
  request_of "POST" "/rest/other_db/users" (inr VNull).

End Spec.

(** ** Further vocabulary: statements, paths and answers *)
Module Props.
Import Js Rest Index Spec.

(** The characters a compiled statement may contain: those of a safe
    identifier, and the few the statement templates use. *)
Definition sql_character (c : ascii) : Prop :=
  safe_character c \/ In c (list_ascii_of_string " *=?`,()").

Definition sql_characterb (c : ascii) : bool :=
  word_char c || existsb (Ascii.eqb c) (list_ascii_of_string " *=?`,()").

Definition clean (s : string) : bool :=
  forallb sql_characterb (list_ascii_of_string s).

(** A query string in which the value of every filter entry is replaced
    by the empty string. *)
Definition blank_values (q : URLSearchParams) : URLSearchParams :=
  map (fun e => if includes reserved (fst e) then e else (fst e, "")) q.

Definition slash_free (s : string) : Prop :=
  ~ In "/"%char (list_ascii_of_string s).

(** The five methods [handleRest] has a case for. *)
Definition handled_method (m : string) : Prop :=
  m = "GET" \/ m = "POST" \/ m = "PUT" \/ m = "PATCH" \/ m = "DELETE".

(** The status of an answer, when there is one. *)
Definition status_of (o : outcome) : option Z :=
  match o with
  | Responds (Json _ s) => Some s
  | Rejects _ => None
  end.

(** The calls of one statement, cut anywhere: nothing, [prepare],
    [prepare] and [bind], or all three. *)
Definition one_statement (calls : list db_call) : Prop :=
  calls = [] \/
  exists db query,
    calls = [Prepare db query] \/
    exists ps,
      calls = [Prepare db query; Bind ps] \/
      exists mode, calls = [Prepare db query; Bind ps; Exec mode].

(** The [query] property of a body, when the body is an object that
    has one of its own. *)
Definition own_query (b : value) : option value :=
  match b with
  | VObj props => own_property props "query"
  | _ => None
  end.

(** A JSON body other than [null]. *)
Definition not_null (b : value) : Prop :=
  match b with
  | VNull | VUndefined => False
  | _ => True
  end.

(** A truthy value that cannot be spread into an argument list. *)
Definition not_iterable (p : value) : Prop :=
  match p with
  | VBool true | VObj _ => True
  | VNum q => Qeq_bool q 0 = false
  | _ => False
  end.

(** A request with another body, another query string, another path. *)
Definition with_body (req : request) (b : string + value) : request :=
  {| method := method req; pathname := pathname req;
     searchParams := searchParams req; authorization := authorization req;
     body := b |}.

Definition with_query (req : request) (q : URLSearchParams) : request :=
  {| method := method req; pathname := pathname req;
     searchParams := q; authorization := authorization req;
     body := body req |}.

Definition with_path (req : request) (path : string) : request :=
  {| method := method req; pathname := path;
     searchParams := searchParams req; authorization := authorization req;
     body := body req |}.

(** A request on the REST route reaches the [switch] on the database
    name: its path has a table segment, and it is a GET, a POST whose
    body is an object, a PUT or PATCH with an id whose body is an
    object, or a DELETE with an id.  [rest] is what follows the
    database segment. *)
Definition reaches_lookup (req : request) (rest : list string) : Prop :=
  rest <> [] /\
  (method req = "GET" \/
   (method req = "POST" /\ exists props, body req = inr (VObj props)) \/
   ((method req = "PUT" \/ method req = "PATCH") /\ (2 <= length rest)%nat /\
    exists props, body req = inr (VObj props)) \/
   (method req = "DELETE" /\ (2 <= length rest)%nat)).

(** The answers [handleRest] gives before it looks at the database
    name; the last case is the parser's exception, which escapes. *)
Definition answered_earlier (req : request) (o : outcome) : Prop :=
  o = Responds (json_error
        "Invalid path. Expected format: /rest/{db_name}/{tableName}/{id?}" 400) \/
  o = Responds (json_error "Invalid data format" 400) \/
  o = Responds (json_error "ID is required for updates" 400) \/
  o = Responds (json_error "ID is required for deletion" 400) \/
  o = Responds (json_error "Method not allowed" 405) \/
  exists msg, body req = inl msg /\ o = Rejects msg.

(** A raw query reaches the [switch] on the database name: its body is
    valid JSON, not [null], and has a truthy [query]. *)
Definition raw_reaches_lookup (req : request) : Prop :=
  exists b query params,
    body req = inr b /\ destructure b = inr (query, params) /\ truthy query = true.

(** The answers the raw query route gives before that. *)
Definition raw_answered_earlier (E : Engine) (req : request) (o : outcome) : Prop :=
  (exists msg, body req = inl msg /\ o = Responds (json_error msg 500)) \/
  o = Responds (json_error (error_message E (DestructureNullish "query")) 500) \/
  o = Responds (json_error "Query is required" 400).

(** A request that a registered route takes. *)
Definition routed (H : Hono) (req : request) : Prop :=
  matches H "/rest/*" (pathname req) = true \/
  (method req = "POST" /\ matches H "/query/*" (pathname req) = true).

(** A framework for closed examples: [cors()] answers an OPTIONS request
    with 204, a pattern takes the paths that start with what precedes
    its star. *)
Definition plain_hono : Hono :=
  {| cors := fun req =>
       if method req =? "OPTIONS" then Some (Json VNull 204) else None;
     matches := fun pattern path =>
       startsWith (substring 0 (String.length pattern - 1) pattern) path;
     not_found := Json (VStr "404 Not Found") 404 |}.

(** The integer a string of decimal digits denotes. *)
Definition decimal_value (s : string) : Z :=
  fold_left (fun a c => (10 * a + Z.of_nat (code c - 48))%Z)
            (list_ascii_of_string s) 0%Z.

(** A string of decimal digits. *)
Definition decimal (s : string) : Prop :=
  s <> "" /\ forall c, In c (list_ascii_of_string s) -> is_digit c = true.

End Props.

(** ** Facts about strings *)
Module JsFacts.
Import Js.

Lemma list_of_remove_all (bad : ascii -> bool) (s : string) :
  list_ascii_of_string (remove_all bad s)
  = filter (fun c => negb (bad c)) (list_ascii_of_string s).
Proof.
  induction s as [|c s IH]; simpl; [reflexivity|].
  destruct (bad c); simpl; now rewrite IH.
Qed.

Lemma remove_all_kept (bad : ascii -> bool) (s : string) (c : ascii) :
  In c (list_ascii_of_string (remove_all bad s)) <->
  In c (list_ascii_of_string s) /\ bad c = false.
Proof.
  rewrite list_of_remove_all, filter_In, negb_true_iff. reflexivity.
Qed.

Lemma remove_all_fixed (bad : ascii -> bool) (s : string) :
  (forall c, In c (list_ascii_of_string s) -> bad c = false) ->
  remove_all bad s = s.
Proof.
  induction s as [|c s IH]; simpl; intros H; [reflexivity|].
  rewrite (H c) by now left.
  f_equal. apply IH. intros d Hd. apply H. now right.
Qed.

Lemma remove_all_idempotent (bad : ascii -> bool) (s : string) :
  remove_all bad (remove_all bad s) = remove_all bad s.
Proof.
  apply remove_all_fixed. intros c Hc.
  now apply remove_all_kept in Hc.
Qed.

Lemma count_char_app (c : ascii) (s t : string) :
  count_char c (s ++ t) = count_char c s + count_char c t.
Proof.
  induction s as [|d s IH]; simpl; [reflexivity|].
  rewrite IH. lia.
Qed.

Lemma count_char_absent (c : ascii) (s : string) :
  ~ In c (list_ascii_of_string s) -> count_char c s = 0.
Proof.
  induction s as [|d s IH]; simpl; intros H; [reflexivity|].
  destruct (Ascii.eqb_spec d c) as [->|_].
  - exfalso. apply H. now left.
  - apply IH. intros Hin. apply H. now right.
Qed.

Lemma append_assoc (s t u : string) : (s ++ t) ++ u = s ++ t ++ u.
Proof. induction s as [|c s IH]; simpl; [reflexivity | now rewrite IH]. Qed.

Lemma append_empty_r (s : string) : s ++ "" = s.
Proof. induction s as [|c s IH]; simpl; [reflexivity | now rewrite IH]. Qed.

(** Occurrences of a character in a joined list, when the separator has
    none. *)
Lemma count_char_join (c : ascii) (sep : string) (l : list string) :
  count_char c sep = 0 ->
  count_char c (join sep l) = list_sum (map (count_char c) l).
Proof.
  intros Hsep. induction l as [|x [|y l] IH].
  - reflexivity.
  - simpl. lia.
  - change (join sep (x :: y :: l)) with (x ++ sep ++ join sep (y :: l)).
    rewrite !count_char_app, Hsep, IH. simpl. lia.
Qed.

Lemma list_sum_ones {A : Type} (f : A -> nat) (l : list A) :
  (forall a, In a l -> f a = 1) -> list_sum (map f l) = length l.
Proof.
  induction l as [|a l IH]; simpl; intros H; [reflexivity|].
  rewrite (H a) by now left. rewrite IH; [reflexivity|].
  intros b Hb. apply H. now right.
Qed.

End JsFacts.

(** ** The identifier sanitizer *)
Module SanitizerFacts.
Import Js Rest Spec JsFacts.

(** The class of the regular expression is the specification's
    alphabet, character by character. *)
Lemma word_char_safe (c : ascii) : word_char c = true <-> safe_character c.
Proof.
  unfold safe_character.
  transitivity (existsb (Ascii.eqb c) (list_ascii_of_string
     "abcdefghijklmnopqrstuvwxyzABCDEFGHIJKLMNOPQRSTUVWXYZ0123456789_") = true).
  - destruct c as [[] [] [] [] [] [] [] []]; vm_compute; split; congruence.
  - rewrite existsb_exists. split.
    + intros [d [Hd Heq]]. apply Ascii.eqb_eq in Heq. now subst.
    + intros H. exists c. split; [assumption | apply Ascii.eqb_refl].
Qed.

Lemma dangerous_not_word (c : ascii) : In c dangerous -> word_char c = false.
Proof.
  unfold dangerous. simpl.
  intros H. repeat (destruct H as [<-|H]; [reflexivity|]). contradiction.
Qed.

Lemma sanitized_chars (s : string) (c : ascii) :
  In c (list_ascii_of_string (sanitizeIdentifier s)) ->
  In c (list_ascii_of_string s) /\ word_char c = true.
Proof.
  unfold sanitizeIdentifier. rewrite remove_all_kept, negb_false_iff. tauto.
Qed.

Lemma sanitized_no_placeholder (s : string) :
  count_char "?" (sanitizeIdentifier s) = 0.
Proof.
  apply count_char_absent. intros H.
  apply sanitized_chars in H. destruct H as [_ H]. discriminate H.
Qed.

(** C4.  For every string [s], [sanitizeIdentifier s] is made of ASCII
    letters, digits and underscores only, so no quote character, white
    space or SQL punctuation survives; and sanitizing twice is the same
    as sanitizing once. *)
Theorem sanitize_safe_idempotent (s : string) :
  Forall safe_character (list_ascii_of_string (sanitizeIdentifier s)) /\
  (forall c, In c dangerous ->
             ~ In c (list_ascii_of_string (sanitizeIdentifier s))) /\
  sanitizeIdentifier (sanitizeIdentifier s) = sanitizeIdentifier s.
Proof.
  split; [|split].
  - apply Forall_forall. intros c Hc.
    apply word_char_safe. now apply sanitized_chars in Hc.
  - intros c Hd Hc. apply sanitized_chars in Hc.
    rewrite (dangerous_not_word c Hd) in Hc. destruct Hc as [_ Hc]. discriminate.
  - apply remove_all_idempotent.
Qed.

End SanitizerFacts.

(** ** The query compiler *)
Module CompilerFacts.
Import Js Rest Spec JsFacts SanitizerFacts.

(** *** Sorting direction *)

(** Upper-casing one character gives one code unit, which is one of the
    letters of DESC exactly when the original is that letter in either
    case; the only exception, sharp s, gives two letters. *)
Lemma upper_char_cases (c : ascii) :
  (upper_unit (N_of_ascii c) = [83; 83]%N /\ fold_case c = ascii_of_nat 223) \/
  (exists d, upper_unit (N_of_ascii c) = [d] /\
             N.eqb d 68 = Ascii.eqb (fold_case c) "d" /\
             N.eqb d 69 = Ascii.eqb (fold_case c) "e" /\
             N.eqb d 83 = Ascii.eqb (fold_case c) "s" /\
             N.eqb d 67 = Ascii.eqb (fold_case c) "c").
Proof.
  destruct c as [[] [] [] [] [] [] [] []];
    first [ left; split; reflexivity
          | right; eexists; repeat split; reflexivity ].
Qed.

Lemma upper_cons (c : ascii) (o : string) :
  toUpperCase (units (String c o))
  = (upper_unit (N_of_ascii c) ++ toUpperCase (units o))%list.
Proof. reflexivity. Qed.

Ltac fold_literals :=
  cbn [app same_units same_ignoring_case];
  change (fold_case "d") with "d"%char;
  change (fold_case "e") with "e"%char;
  change (fold_case "s") with "s"%char;
  change (fold_case "c") with "c"%char.

(** Case analysis on the upper case of the next character [c], which is
    compared with a capital on one side and with [l] on the other. *)
Ltac next_letter c l :=
  let d := fresh "d" in
  let Hu := fresh "Hu" in
  let HD := fresh "HD" in
  let HE := fresh "HE" in
  let HS := fresh "HS" in
  let HC := fresh "HC" in
  rewrite upper_cons; fold_literals;
  destruct (upper_char_cases c) as [[Hu HD] | [d [Hu [HD [HE [HS HC]]]]]];
  rewrite Hu; fold_literals;
  [ rewrite HD; reflexivity
  | try rewrite HD; try rewrite HE; try rewrite HS; try rewrite HC;
    clear Hu HD HE HS HC d;
    destruct (Ascii.eqb (fold_case c) l); [cbn [andb] | reflexivity] ].

Lemma upper_is_DESC (o : string) :
  same_units (toUpperCase (units o)) [68; 69; 83; 67]%N
  = same_ignoring_case o "desc".
Proof.
  destruct o as [|c1 o]; [reflexivity|]. next_letter c1 "d"%char.
  destruct o as [|c2 o]; [reflexivity|]. next_letter c2 "e"%char.
  destruct o as [|c3 o]; [reflexivity|]. next_letter c3 "s"%char.
  destruct o as [|c4 o]; [reflexivity|]. next_letter c4 "c"%char.
  destruct o as [|c5 o]; [reflexivity|].
  rewrite upper_cons; fold_literals.
  destruct (upper_char_cases c5) as [[Hu _] | [d [Hu _]]];
    rewrite Hu; reflexivity.
Qed.

(** The same on code units of any value. *)
Ltac unit_tests :=
  repeat first
    [ match goal with
      | |- context [(?a <=? ?b)%N] =>
          destruct (N.leb_spec a b); try (exfalso; lia)
      | |- context [(?a =? ?b)%N] =>
          destruct (N.eqb_spec a b); try (exfalso; lia)
      end
    | progress cbn [same_units app andb orb negb] ];
  try reflexivity.

Lemma upper_unit_nonempty (u : N) (rest : list N) :
  same_units (upper_unit u ++ rest) [] = false.
Proof. unfold upper_unit. unit_tests. Qed.

Lemma upper_unit_D (u : N) (rest : list N) :
  same_units (upper_unit u ++ rest) [68; 69; 83; 67]%N
  = ((u =? 100) || (u =? 68))%N && same_units rest [69; 83; 67]%N.
Proof. unfold upper_unit. unit_tests. Qed.

Lemma upper_unit_E (u : N) (rest : list N) :
  same_units (upper_unit u ++ rest) [69; 83; 67]%N
  = ((u =? 101) || (u =? 69))%N && same_units rest [83; 67]%N.
Proof. unfold upper_unit. unit_tests. Qed.

Lemma upper_unit_S (u : N) (rest : list N) :
  same_units (upper_unit u ++ rest) [83; 67]%N
  = ((u =? 115) || (u =? 83) || (u =? 383))%N && same_units rest [67]%N.
Proof. unfold upper_unit. unit_tests. Qed.

Lemma upper_unit_C (u : N) (rest : list N) :
  same_units (upper_unit u ++ rest) [67]%N
  = ((u =? 99) || (u =? 67))%N && same_units rest [].
Proof. unfold upper_unit. unit_tests. Qed.

Lemma upper_is_DESC_units (o : list N) :
  same_units (toUpperCase o) [68; 69; 83; 67]%N = desc_units o.
Proof.
  unfold toUpperCase.
  destruct o as [|a [|b [|c [|d [|e o]]]]]; cbn [flat_map desc_units];
    try reflexivity;
    rewrite ?upper_unit_D, ?upper_unit_E, ?upper_unit_S, ?upper_unit_C,
      ?upper_unit_nonempty;
    cbn [same_units];
    rewrite ?andb_false_r, ?andb_true_r, ?andb_assoc; reflexivity.
Qed.

Lemma direction_of_spec (order : option (list N)) :
  direction_of order = "DESC" <-> exists o, order = Some o /\ desc_units o = true.
Proof.
  unfold direction_of. destruct order as [o|].
  - change (units "DESC") with [68; 69; 83; 67]%N. rewrite upper_is_DESC_units.
    destruct (desc_units o) eqn:Hd; split.
    + intros _. now exists o.
    + reflexivity.
    + discriminate.
    + intros [o' [Heq Ht]]. injection Heq as <-. congruence.
  - split; [discriminate | intros [o [Heq _]]; discriminate].
Qed.

Lemma direction_spec (order : option string) :
  direction order
  = match order with
    | Some o => if same_ignoring_case o "desc" then "DESC" else "ASC"
    | None => "ASC"
    end.
Proof.
  destruct order as [o|]; [|reflexivity].
  unfold direction, direction_of. cbn [option_map].
  change (units "DESC") with [68; 69; 83; 67]%N. now rewrite upper_is_DESC.
Qed.

(** *** The loop of [handleGet] *)

Lemma filter_loop (q : URLSearchParams) (cs : list string) (ps : list value) :
  fold_left filter_step q (cs, ps)
  = ((cs ++ map filter_condition (filters q))%list,
     (ps ++ map filter_value (filters q))%list).
Proof.
  revert cs ps. induction q as [|[k v] q IH]; intros cs ps.
  - simpl. now rewrite !app_nil_r.
  - change (fold_left filter_step ((k, v) :: q) (cs, ps))
      with (fold_left filter_step q (filter_step (cs, ps) (k, v))).
    unfold filters. cbn [filter fst]. fold (filters q).
    unfold filter_step.
    destruct (includes reserved k); cbn [negb].
    + apply IH.
    + rewrite IH. cbn [map]. rewrite <- !app_assoc. reflexivity.
Qed.

Lemma add_where_spec (cs : list string) (query : string) (ps : list value) :
  add_where cs (query, ps) = (query ++ where_clause cs, ps).
Proof.
  destruct cs; simpl; [now rewrite append_empty_r | reflexivity].
Qed.

Lemma add_sorting_spec (q : URLSearchParams) (query : string) (ps : list value) :
  add_sorting q (query, ps) = (query ++ order_clause q, ps).
Proof.
  unfold add_sorting, order_clause.
  destruct (get q "sort_by") as [sortBy|]; [|now rewrite append_empty_r].
  destruct (truthy_string sortBy); [|now rewrite append_empty_r].
  now rewrite direction_spec.
Qed.

Lemma add_pagination_spec (q : URLSearchParams) (query : string) (ps : list value) :
  add_pagination q (query, ps)
  = (query ++ fst (page q), (ps ++ snd (page q))%list).
Proof.
  unfold add_pagination, page.
  destruct (get q "limit") as [l|]; [|now rewrite append_empty_r, app_nil_r].
  destruct (truthy_string l); [|now rewrite append_empty_r, app_nil_r].
  destruct (get q "offset") as [o|]; [destruct (truthy_string o)|]; simpl;
    rewrite ?append_assoc, <- ?app_assoc; reflexivity.
Qed.

(** [handleGet] computes the statement of [Spec.select_statement]. *)
Lemma handleGet_closed_form (q : URLSearchParams) (t : string) (id : option string) :
  handleGet q t id = select_statement q t id.
Proof.
  unfold handleGet, select_statement.
  assert (Hloop :
    fold_left filter_step q
      match id with
      | Some i => if truthy_string i then (["id = ?"], [VStr i]) else ([], [])
      | None => ([], [])
      end
    = ((map fst (id_filter id) ++ map filter_condition (filters q))%list,
       (map snd (id_filter id) ++ map filter_value (filters q))%list)).
  { unfold id_filter. destruct id as [i|]; [destruct (truthy_string i)|];
      apply filter_loop. }
  rewrite Hloop, add_where_spec, add_sorting_spec, add_pagination_spec.
  rewrite !append_assoc, <- !app_assoc. reflexivity.
Qed.

(** *** Filters and sorting *)

Lemma filters_not_reserved (q : URLSearchParams) (e : string * string) :
  In e (filters q) <-> In e q /\ ~ In (fst e) reserved.
Proof.
  unfold filters. rewrite filter_In, negb_true_iff.
  split; intros [Hin H]; split; try assumption.
  - intros Hr. unfold includes in H.
    assert (Ht : existsb (String.eqb (fst e)) reserved = true).
    { apply existsb_exists. exists (fst e). split; [assumption | apply String.eqb_refl]. }
    congruence.
  - destruct (includes reserved (fst e)) eqn:Hi; [|reflexivity].
    exfalso. apply H. unfold includes in Hi. apply existsb_exists in Hi.
    destruct Hi as [x [Hx Heq]]. apply String.eqb_eq in Heq. now subst x.
Qed.

(** C9, as the code has it.  GET on [users] with
    [age=25&sort_by=name&order=desc] compiles to the statement of the
    specification with the one parameter "25".  In general the WHERE
    conditions are the id filter followed by one equality per entry of
    [filters q], and no entry of [filters q] has a reserved key.  The
    direction is DESC exactly when the upper case of [order] is DESC,
    which is when [order] is made of four code units, d, e, s and c in
    either case, the third being possibly the long s (383); it is ASC
    otherwise.  For an [order] of code units below 256, as [handleGet]
    gets it here, that is exactly when it equals [desc] up to the case
    of ASCII letters. *)
Theorem get_filters_and_sorting :
  handleGet [("age", "25"); ("sort_by", "name"); ("order", "desc")] "users" None
  = {| status := 200;
       message := "SELECT * FROM `users` WHERE age = ? ORDER BY name DESC";
       params := Some [VStr "25"] |}
  /\ (forall q t id, handleGet q t id = select_statement q t id)
  /\ (forall q e, In e (filters q) <-> In e q /\ ~ In (fst e) reserved)
  /\ (forall order : option (list N),
        direction_of order = "DESC" <->
        exists o, order = Some o /\ desc_units o = true)
  /\ (forall order : option (list N),
        direction_of order = "DESC" \/ direction_of order = "ASC")
  /\ (forall order : option string,
        direction order = direction_of (option_map units order))
  /\ (forall order : option string,
        direction order = "DESC" <->
        exists o, order = Some o /\ same_ignoring_case o "desc" = true).
Proof.
  split; [reflexivity|].
  split; [exact handleGet_closed_form|].
  split; [exact filters_not_reserved|].
  split; [exact direction_of_spec|].
  split.
  { intros order. unfold direction_of.
    destruct order as [o|]; [|now right].
    destruct (same_units (toUpperCase o) (units "DESC")); [now left | now right]. }
  split; [reflexivity|].
  intros order. rewrite direction_spec. destruct order as [o|].
  - destruct (same_ignoring_case o "desc") eqn:Ho; split.
    + intros _. now exists o.
    + reflexivity.
    + discriminate.
    + intros [o' [Heq Ht]]. injection Heq as <-. congruence.
  - split; [discriminate | intros [o [Heq _]]; discriminate].
Qed.

(** C9 as worded fails: with the long s for its third letter, [order]
    does not equal [desc] up to case, and the direction is DESC. *)
Lemma long_s_sorts_descending :
  ~ direction_as_stated (Some [100; 101; 383; 99]%N).
Proof.
  unfold direction_as_stated. intros [H _].
  destruct (H eq_refl) as [o [Ho Hc]]. injection Ho as <-.
  vm_compute in Hc. discriminate Hc.
Qed.

(** *** Pagination *)

Lemma filters_without_pagination (q : URLSearchParams) :
  filters (without_pagination q) = filters q.
Proof.
  induction q as [|[k v] q IH]; [reflexivity|].
  unfold without_pagination, filters in *. cbn [filter fst].
  destruct (String.eqb_spec k "limit") as [->|Hl]; cbn [orb negb].
  - exact IH.
  - destruct (String.eqb_spec k "offset") as [->|Ho]; cbn [negb].
    + exact IH.
    + cbn [filter fst]. now rewrite IH.
Qed.

Lemma get_without_pagination (q : URLSearchParams) (k : string) :
  k <> "limit" -> k <> "offset" -> get (without_pagination q) k = get q k.
Proof.
  intros Hl Ho. induction q as [|[k' v] q IH]; [reflexivity|].
  unfold without_pagination in *. cbn [filter fst get].
  destruct (String.eqb_spec k' k) as [->|Hk].
  - apply String.eqb_neq in Hl, Ho. rewrite Hl, Ho. cbn [orb negb get].
    now rewrite String.eqb_refl.
  - destruct ((k' =? "limit") || (k' =? "offset")); cbn [negb get].
    + exact IH.
    + apply String.eqb_neq in Hk. now rewrite Hk.
Qed.

Lemma get_pagination_removed (q : URLSearchParams) :
  get (without_pagination q) "limit" = None /\
  get (without_pagination q) "offset" = None.
Proof.
  induction q as [|[k v] q IH]; [now split|].
  unfold without_pagination in *. cbn [filter fst].
  destruct (String.eqb_spec k "limit") as [->|Hl]; cbn [orb negb]; [exact IH|].
  destruct (String.eqb_spec k "offset") as [->|Ho]; cbn [negb]; [exact IH|].
  cbn [get]. apply String.eqb_neq in Hl, Ho. now rewrite Hl, Ho.
Qed.

(** A GET is the GET without its [limit] and [offset] entries, followed
    by what [Spec.page] adds. *)
Lemma handleGet_page (q : URLSearchParams) (t : string) (id : option string) :
  message (handleGet q t id)
  = message (handleGet (without_pagination q) t id) ++ fst (page q) /\
  params (handleGet q t id)
  = Some (or_empty (params (handleGet (without_pagination q) t id))
          ++ snd (page q))%list.
Proof.
  rewrite !handleGet_closed_form. unfold select_statement. cbn [message params or_empty].
  rewrite filters_without_pagination.
  assert (Ho : order_clause (without_pagination q) = order_clause q).
  { unfold order_clause. now rewrite !get_without_pagination by discriminate. }
  assert (Hp : page (without_pagination q) = ("", [])).
  { unfold page. now rewrite (proj1 (get_pagination_removed q)). }
  rewrite Ho, Hp. cbn [fst snd].
  rewrite append_empty_r, app_nil_r, !append_assoc, <- !app_assoc. split; reflexivity.
Qed.

Lemma truthy_string_nonempty (s : string) : truthy_string s = true <-> s <> "".
Proof. destruct s; simpl; split; congruence. Qed.

(** C5, as the code has it.  When the first [limit] value is not empty
    the statement is that of the same request without pagination
    followed by [LIMIT ?], and by [OFFSET ?] when the first [offset]
    value is not empty either, the parsed integers being bound last in
    that order.  When [limit] is absent or empty nothing is added,
    whatever [offset] is: its value reaches neither the text nor the
    parameters. *)
Theorem get_pagination (q : URLSearchParams) (t : string) (id : option string) :
  let r := handleGet q t id in
  let r0 := handleGet (without_pagination q) t id in
  (forall l, get q "limit" = Some l -> l <> "" ->
     (forall o, get q "offset" = Some o -> o <> "" ->
        message r = message r0 ++ " LIMIT ? OFFSET ?" /\
        params r = Some (or_empty (params r0) ++ [parseInt l; parseInt o])%list) /\
     (get q "offset" = None \/ get q "offset" = Some "" ->
        message r = message r0 ++ " LIMIT ?" /\
        params r = Some (or_empty (params r0) ++ [parseInt l])%list)) /\
  (get q "limit" = None \/ get q "limit" = Some "" -> r = r0).
Proof.
  intros r r0. subst r r0.
  destruct (handleGet_page q t id) as [Hm Hp]. split.
  - intros l Hl Hne. apply truthy_string_nonempty in Hne.
    unfold page in Hm, Hp. rewrite Hl, Hne in Hm, Hp. split.
    + intros o Ho Hno. apply truthy_string_nonempty in Hno.
      rewrite Ho, Hno in Hm, Hp. now split.
    + intros [Ho | Ho]; rewrite Ho in Hm, Hp; now split.
  - intros Hl.
    assert (Hpage : page q = ("", [])).
    { unfold page. destruct Hl as [-> | ->]; reflexivity. }
    rewrite Hpage in Hm, Hp. cbn [fst snd] in Hm, Hp.
    rewrite append_empty_r in Hm. rewrite app_nil_r in Hp.
    rewrite handleGet_closed_form in *.
    rewrite (handleGet_closed_form (without_pagination q)) in *.
    unfold select_statement in *. cbn [message params or_empty] in Hm, Hp.
    now rewrite Hm, Hp.
Qed.

(** The theorem at [limit=10&offset=20]. *)
Lemma get_pagination_witness :
  get [("limit", "10"); ("offset", "20")] "limit" = Some "10" /\
  get [("limit", "10"); ("offset", "20")] "offset" = Some "20" /\
  message (handleGet [("limit", "10"); ("offset", "20")] "users" None)
  = "SELECT * FROM `users` LIMIT ? OFFSET ?" /\
  params (handleGet [("limit", "10"); ("offset", "20")] "users" None)
  = Some [VNum (inject_Z 10); VNum (inject_Z 20)].
Proof.
  split; [reflexivity|]. split; [reflexivity|].
  exact (proj1 (proj1 (get_pagination [("limit", "10"); ("offset", "20")] "users" None)
                  "10" eq_refl ltac:(discriminate))
               "20" eq_refl ltac:(discriminate)).
Defined.

(** C5 as worded fails: a [limit] entry with an empty value is in the
    query string, and no LIMIT is appended. *)
Lemma empty_limit_is_ignored :
  ~ pagination_as_stated [("limit", "")] "users" None.
Proof.
  intros H. specialize (H "" eq_refl). vm_compute in H. discriminate H.
Qed.

(** *** Placeholders of the compiled statements *)

Lemma placeholders_app (s t : string) :
  placeholders (s ++ t) = placeholders s + placeholders t.
Proof. apply count_char_app. Qed.

Lemma placeholders_keyword (t : string) : placeholders (sanitizeKeyword t) = 0.
Proof.
  unfold sanitizeKeyword. rewrite !placeholders_app.
  unfold placeholders at 2. now rewrite sanitized_no_placeholder.
Qed.

Lemma placeholders_columns (cols : list string) :
  placeholders (join ", " (map sanitizeIdentifier cols)) = 0.
Proof.
  unfold placeholders. rewrite count_char_join by reflexivity.
  induction cols as [|c cols IH]; [reflexivity|].
  simpl. rewrite sanitized_no_placeholder. exact IH.
Qed.

Lemma placeholders_marks {A : Type} (l : list A) :
  placeholders (join ", " (map (fun _ => "?") l)) = length l.
Proof.
  unfold placeholders. rewrite count_char_join by reflexivity.
  rewrite map_map, list_sum_ones; [reflexivity | intros; reflexivity].
Qed.

Lemma placeholders_assignments (cols : list string) :
  placeholders (join ", " (map (fun col => col ++ " = ?")
                               (map sanitizeIdentifier cols)))
  = length cols.
Proof.
  unfold placeholders. rewrite count_char_join by reflexivity.
  rewrite !map_map, list_sum_ones; [reflexivity|].
  intros a _. rewrite count_char_app, sanitized_no_placeholder. reflexivity.
Qed.

Lemma placeholders_where (id : option string) (q : URLSearchParams) :
  placeholders (where_clause (map fst (id_filter id)
                              ++ map filter_condition (filters q))%list)
  = length (map snd (id_filter id) ++ map filter_value (filters q))%list.
Proof.
  set (cs := (map fst (id_filter id) ++ map filter_condition (filters q))%list).
  assert (Hone : forall c, In c cs -> count_char "?" c = 1).
  { intros c Hc. apply in_app_or in Hc. destruct Hc as [Hc|Hc].
    - unfold id_filter in Hc.
      destruct id as [i|]; [destruct (truthy_string i)|]; simpl in Hc;
        try contradiction.
      destruct Hc as [<-|[]]. reflexivity.
    - apply in_map_iff in Hc. destruct Hc as [e [<- _]].
      unfold filter_condition.
      rewrite count_char_app, sanitized_no_placeholder. reflexivity. }
  assert (Hlen : length cs
                 = length (map snd (id_filter id)
                           ++ map filter_value (filters q))%list).
  { unfold cs. now rewrite !length_app, !length_map. }
  rewrite <- Hlen. unfold where_clause.
  destruct cs as [|c cs']; [reflexivity|].
  rewrite placeholders_app. unfold placeholders.
  rewrite count_char_join by reflexivity.
  rewrite list_sum_ones by exact Hone. reflexivity.
Qed.

Lemma placeholders_order (q : URLSearchParams) : placeholders (order_clause q) = 0.
Proof.
  unfold order_clause.
  destruct (get q "sort_by") as [sortBy|]; [|reflexivity].
  destruct (truthy_string sortBy); [|reflexivity].
  rewrite !placeholders_app. unfold placeholders at 2.
  rewrite sanitized_no_placeholder.
  destruct (get q "order") as [o|]; [destruct (same_ignoring_case o "desc")|];
    reflexivity.
Qed.

Lemma placeholders_page (q : URLSearchParams) :
  placeholders (fst (page q)) = length (snd (page q)).
Proof.
  unfold page.
  destruct (get q "limit") as [l|]; [|reflexivity].
  destruct (truthy_string l); [|reflexivity].
  destruct (get q "offset") as [o|]; [destruct (truthy_string o)|]; reflexivity.
Qed.

(** The statement of a GET has as many placeholders as parameters. *)
Lemma handleGet_placeholders (q : URLSearchParams) (t : string) (id : option string) :
  placeholders (message (handleGet q t id))
  = length (or_empty (params (handleGet q t id))).
Proof.
  rewrite handleGet_closed_form. unfold select_statement.
  cbn [message params or_empty].
  rewrite !placeholders_app, placeholders_keyword, placeholders_where,
    placeholders_order, placeholders_page.
  rewrite !length_app. change (placeholders "SELECT * FROM ") with 0. lia.
Qed.

Lemma valid_object (props : list (string * value)) : invalid_data (VObj props) = false.
Proof. reflexivity. Qed.

(** So has the statement of a POST. *)
Lemma handlePost_placeholders (t : string) (props : list (string * value)) :
  placeholders (message (handlePost t (VObj props)))
  = length (or_empty (params (handlePost t (VObj props)))).
Proof.
  unfold handlePost. rewrite valid_object. cbn [message params or_empty].
  rewrite !placeholders_app, placeholders_keyword, placeholders_columns,
    placeholders_marks, !length_map.
  change (placeholders "INSERT INTO ") with 0.
  change (placeholders " (") with 0.
  change (placeholders ") VALUES (") with 0.
  change (placeholders ")") with 0. lia.
Qed.

(** And the statement [handleUpdate] returns, with the parameters it
    returns. *)
Lemma handleUpdate_placeholders (t id : string) (props : list (string * value)) :
  placeholders (message (handleUpdate t id (VObj props)))
  = length (or_empty (params (handleUpdate t id (VObj props)))).
Proof.
  unfold handleUpdate. rewrite valid_object. cbn [message params or_empty].
  rewrite !placeholders_app, placeholders_keyword, placeholders_assignments.
  unfold values, keys. rewrite length_app, !length_map.
  change (placeholders "UPDATE ") with 0.
  change (placeholders " SET ") with 0.
  change (placeholders " WHERE id = ?") with 1.
  simpl. lia.
Qed.

(** *** Create *)

(** C6.  For a POST whose body is an object, the statement is
    [INSERT INTO <quoted table> (<columns>) VALUES (<marks>)] where the
    columns are the sanitized keys in key order and there is one [?]
    per column, and the values bound are the object's properties looked
    up by sanitized column name, in column order; the body
    [{name: John, age: 30}] gives the parameters John and 30. *)
Theorem post_insert_statement :
  (forall t props,
     let columns := map sanitizeIdentifier (keys props) in
     handlePost t (VObj props)
     = {| status := 200;
          message := "INSERT INTO " ++ sanitizeKeyword t
                     ++ " (" ++ join ", " columns ++ ") VALUES ("
                     ++ join ", " (repeat "?" (length columns)) ++ ")";
          params := Some (map (get_property props) columns) |}
     /\ placeholders (message (handlePost t (VObj props))) = length columns)
  /\ handlePost "users" (VObj [("name", VStr "John"); ("age", VNum (inject_Z 30))])
     = {| status := 200;
          message := "INSERT INTO `users` (name, age) VALUES (?, ?)";
          params := Some [VStr "John"; VNum (inject_Z 30)] |}.
Proof.
  split; [|reflexivity].
  intros t props columns. split.
  - unfold handlePost. rewrite valid_object. fold columns.
    replace (map (fun _ : string => "?") columns)
      with (repeat "?" (length columns)); [reflexivity|].
    clear. induction columns as [|c l IH]; [reflexivity|].
    simpl. now rewrite IH.
  - rewrite handlePost_placeholders. unfold handlePost. rewrite valid_object.
    cbn [params or_empty]. now rewrite length_map.
Qed.

End CompilerFacts.

(** ** The dispatcher *)
Module DispatchFacts.
Import Js Rest Index Spec JsFacts SanitizerFacts CompilerFacts.

Lemma path_parts_truthy (pathname x : string) :
  In x (path_parts pathname) -> truthy_string x = true.
Proof. unfold path_parts. rewrite filter_In. tauto. Qed.

Lemma fourth_part_truthy (pathname r db t id : string) (more : list string) :
  path_parts pathname = r :: db :: t :: id :: more -> truthy_string id = true.
Proof.
  intros H. apply (path_parts_truthy pathname). rewrite H. simpl. tauto.
Qed.

(** With at least three path segments [handleRest] is the [switch] on
    the method. *)
Lemma handleRest_switch (E : Engine) (req : request) (r db t : string)
    (more : list string) :
  path_parts (pathname req) = r :: db :: t :: more ->
  handleRest E req
  = if method req =? "GET" then rest_get E req db t (nth_error more 0)
    else if method req =? "POST" then rest_post E req db t
    else if (method req =? "PUT") || (method req =? "PATCH")
         then rest_update E req db t (nth_error more 0)
    else if method req =? "DELETE" then rest_delete E req db t (nth_error more 0)
    else (Responds (json_error "Method not allowed" 405), []).
Proof.
  intros H. unfold handleRest. rewrite H. reflexivity.
Qed.

Lemma handleRest_short (E : Engine) (req : request) :
  (length (path_parts (pathname req)) < 3)%nat ->
  snd (handleRest E req) = [].
Proof.
  intros H. unfold handleRest. apply Nat.ltb_lt in H. now rewrite H.
Qed.

Lemma invalid_data_not_object (data : value) :
  not_an_object data -> invalid_data data = true.
Proof.
  destruct data as [| |b|q| |s|items|props|name| |neg]; simpl; try contradiction;
    intros _; try reflexivity.
  - now destruct b.
  - unfold invalid_data. simpl. now destruct (Qeq_bool q 0).
  - now destruct s.
Qed.

Lemma run_statement_calls (E : Engine) (db : database) (query : value)
    (ps : list value) (mode : exec_mode) :
  exists tail,
    snd (run_statement E db query ps mode) = Prepare db query :: Bind ps :: tail
    /\ (tail = [] \/ tail = [Exec mode]).
Proof.
  unfold run_statement. destruct (d1_bind E ps).
  - exists []. split; [reflexivity | now left].
  - exists [Exec mode]. split; [reflexivity | now right].
Qed.

(** *** Bodies that are not objects *)

(** C7.  When the JSON body of a POST, PUT or PATCH is [null], an array
    or a primitive, [handlePost] and [handleUpdate] return the client
    error "Invalid data format" without building a statement, and the
    request is answered 400 with that message with no call on any
    database. *)
Theorem invalid_body_rejected (data : value) :
  not_an_object data ->
  (forall t, handlePost t data = invalid_data_format) /\
  (forall t id, handleUpdate t id data = invalid_data_format) /\
  (forall E req r db t more,
     body req = inr data ->
     path_parts (pathname req) = r :: db :: t :: more ->
     (method req = "POST" ->
      handleRest E req = (Responds (json_error "Invalid data format" 400), [])) /\
     (method req = "PUT" \/ method req = "PATCH" -> more <> [] ->
      handleRest E req = (Responds (json_error "Invalid data format" 400), []))).
Proof.
  intros Hd. pose proof (invalid_data_not_object data Hd) as Hinv.
  assert (Hpost : forall t, handlePost t data = invalid_data_format).
  { intros t. unfold handlePost. now rewrite Hinv. }
  assert (Hupd : forall t id, handleUpdate t id data = invalid_data_format).
  { intros t id. unfold handleUpdate. now rewrite Hinv. }
  split; [exact Hpost|]. split; [exact Hupd|].
  intros E req r db t more Hb Hp. rewrite (handleRest_switch E req r db t more Hp).
  split.
  - intros Hm. rewrite Hm. cbn [String.eqb Ascii.eqb Bool.eqb andb].
    unfold rest_post. rewrite Hb, Hpost. reflexivity.
  - intros Hm Hmore.
    destruct more as [|id more']; [contradiction|].
    pose proof (fourth_part_truthy _ _ _ _ _ _ Hp) as Hid.
    assert (Hsw : (method req =? "GET") = false /\ (method req =? "POST") = false
                  /\ (method req =? "PUT") || (method req =? "PATCH") = true).
    { destruct Hm as [-> | ->]; repeat split; reflexivity. }
    destruct Hsw as [-> [-> ->]].
    unfold rest_update. cbn [nth_error]. rewrite Hid, Hb, Hupd. reflexivity.
Qed.

(** The theorem at the body [null] of a POST. *)
Lemma invalid_body_rejected_witness :
  not_an_object VNull /\
  handlePost "users" VNull = invalid_data_format /\
  handleRest quiet post_null_elsewhere
  = (Responds (json_error "Invalid data format" 400), []).
Proof.
  split; [exact I|].
  pose proof (invalid_body_rejected VNull I) as [Hpost [_ Hrest]].
  split; [apply Hpost|].
  exact (proj1 (Hrest quiet post_null_elsewhere "rest" "other_db" "users" []
                      eq_refl eq_refl) eq_refl).
Defined.

(** *** Delete *)

Lemma rest_delete_with_id (E : Engine) (req : request) (db t id : string) :
  truthy_string id = true ->
  rest_delete E req db t (Some id)
  = match select_db db with
    | None => (Responds unknown_database, [])
    | Some d =>
        match run_statement E d (VStr (message (handleDelete t id))) [] Run with
        | (inr _, calls) =>
            (Responds (Json (VObj [("message", VStr "Resource deleted successfully")])
                            200), calls)
        | (inl msg, calls) => (Responds (json_error msg 500), calls)
        end
    end.
Proof. intros Hid. unfold rest_delete. rewrite Hid. reflexivity. Qed.

(** Case analysis on the outcome of a statement [run_statement E d q ps
    mode] in the goal, keeping what is known of its calls. *)
Ltac run_cases E d q ps mode others Hcalls Htail :=
  destruct (run_statement_calls E d q ps mode) as [others [Hcalls Htail]];
  destruct (run_statement E d q ps mode) as [[?msg | ?v] ?calls];
  cbn [snd] in Hcalls |- *; rewrite Hcalls.

(** C3.  For a DELETE with an id, the statement compiled is
    [DELETE FROM <quoted table> WHERE id = ?]; on a known database it is
    prepared and [bind] is called with no argument, so the id is not
    among the bound parameters; whatever the database, every [bind] of
    the request has an empty argument list. *)
Theorem delete_binds_nothing (E : Engine) (req : request) (r db t id : string)
    (more : list string) :
  method req = "DELETE" ->
  path_parts (pathname req) = r :: db :: t :: id :: more ->
  let sql := "DELETE FROM " ++ sanitizeKeyword t ++ " WHERE id = ?" in
  handleDelete t id = {| status := 200; message := sql; params := None |} /\
  (forall d, select_db db = Some d ->
     exists tail,
       snd (handleRest E req) = Prepare d (VStr sql) :: Bind [] :: tail /\
       (tail = [] \/ tail = [Exec Run])) /\
  (select_db db = None -> snd (handleRest E req) = []) /\
  (forall ps, In (Bind ps) (snd (handleRest E req)) -> ps = []).
Proof.
  intros Hm Hp sql.
  pose proof (fourth_part_truthy _ _ _ _ _ _ Hp) as Hid.
  assert (Hrest : handleRest E req = rest_delete E req db t (Some id)).
  { rewrite (handleRest_switch E req r db t (id :: more) Hp), Hm. reflexivity. }
  rewrite Hrest, (rest_delete_with_id E req db t id Hid).
  split; [reflexivity|].
  destruct (select_db db) as [d|].
  - assert (Hbind : forall tail ps,
              tail = [] \/ tail = [Exec Run] ->
              In (Bind ps) (Prepare d (VStr sql) :: Bind [] :: tail) -> ps = []).
    { intros tail ps Htail [Hin | [Hin | Hin]].
      - discriminate Hin.
      - now injection Hin as <-.
      - destruct Htail as [-> | ->]; simpl in Hin; [contradiction|].
        destruct Hin as [Hin|[]]. discriminate Hin. }
    run_cases E d (VStr (message (handleDelete t id))) (@nil value) Run
              others Hcalls Htail;
      (split; [|split]);
      [ intros d' Hd'; injection Hd' as <-; exists others; now split
      | discriminate
      | intros ps; now apply Hbind
      | intros d' Hd'; injection Hd' as <-; exists others; now split
      | discriminate
      | intros ps; now apply Hbind ].
  - split; [discriminate|]. split; [reflexivity|]. intros ps [].
Qed.

(** The theorem at DELETE /rest/mcw_db/users/123. *)
Lemma delete_binds_nothing_witness :
  method delete_user = "DELETE" /\
  path_parts (pathname delete_user) = ["rest"; "mcw_db"; "users"; "123"] /\
  exists tail,
    snd (handleRest quiet delete_user)
    = Prepare MCW_DB (VStr "DELETE FROM `users` WHERE id = ?") :: Bind [] :: tail /\
    (tail = [] \/ tail = [Exec Run]).
Proof.
  split; [reflexivity|]. split; [reflexivity|].
  exact (proj1 (proj2 (delete_binds_nothing quiet delete_user
                         "rest" "mcw_db" "users" "123" [] eq_refl eq_refl))
               MCW_DB eq_refl).
Defined.

(** *** Update *)

(** [handleUpdate] itself returns the values in key order, then the id. *)
Lemma handleUpdate_statement (t id : string) (props : list (string * value)) :
  handleUpdate t id (VObj props)
  = {| status := 200;
       message := "UPDATE " ++ sanitizeKeyword t ++ " SET "
                  ++ join ", " (map (fun col => col ++ " = ?")
                                    (map sanitizeIdentifier (keys props)))
                  ++ " WHERE id = ?";
       params := Some (values props ++ [VStr id])%list |}.
Proof. reflexivity. Qed.

(** No PUT or PATCH request reaches [bind]. *)
Lemma update_never_binds (E : Engine) (req : request) (ps : list value) :
  method req = "PUT" \/ method req = "PATCH" ->
  ~ In (Bind ps) (snd (handleRest E req)).
Proof.
  intros Hm Hin.
  destruct (path_parts (pathname req)) as [|r [|db [|t more]]] eqn:Hp;
    try (rewrite handleRest_short in Hin by (rewrite Hp; simpl; lia);
         contradiction).
  rewrite (handleRest_switch E req r db t more Hp) in Hin.
  assert (Hsw : (method req =? "GET") = false /\ (method req =? "POST") = false
                /\ (method req =? "PUT") || (method req =? "PATCH") = true).
  { destruct Hm as [-> | ->]; repeat split; reflexivity. }
  destruct Hsw as [Hg [Hpo Hpu]]. rewrite Hg, Hpo, Hpu in Hin.
  unfold rest_update in Hin.
  destruct (nth_error more 0) as [i|]; [|contradiction].
  destruct (truthy_string i); cbn [negb] in Hin; [|contradiction].
  destruct (body req) as [msg|data]; [contradiction|].
  destruct (negb (status (handleUpdate t i data) =? 200)%Z); [contradiction|].
  destruct (select_db db) as [d|]; [|contradiction].
  cbn [read_binding snd] in Hin. destruct Hin as [Hin|[]]. discriminate Hin.
Qed.

(** C2, evaluated at PATCH /rest/mcw_db/users/123 with body [{age: 31}].
    [handleUpdate] returns the parameters 31 and "123", but the request
    is answered 500 after [prepare]: the argument of [bind] reads the
    uninitialised [params], and nothing is bound. *)
Theorem update_parameters_never_bound (E : Engine) :
  handleUpdate "users" "123" (VObj [("age", VNum (inject_Z 31))])
  = {| status := 200;
       message := "UPDATE `users` SET age = ? WHERE id = ?";
       params := Some [VNum (inject_Z 31); VStr "123"] |} /\
  handleRest E patch_age
  = (Responds (json_error (error_message E (UninitialisedBinding "params")) 500),
     [Prepare MCW_DB (VStr "UPDATE `users` SET age = ? WHERE id = ?")]) /\
  (forall ps, ~ In (Bind ps) (snd (handleRest E patch_age))).
Proof.
  split; [reflexivity|]. split; [reflexivity|].
  intros ps. apply update_never_binds. now right.
Qed.

(** *** Placeholders at the execution boundary *)

Lemma handleGet_status (q : URLSearchParams) (t : string) (id : option string) :
  status (handleGet q t id) = 200%Z.
Proof. now rewrite handleGet_closed_form. Qed.

Lemma handlePost_status (t : string) (props : list (string * value)) :
  status (handlePost t (VObj props)) = 200%Z.
Proof. reflexivity. Qed.

(** A GET or a POST that reaches the database binds as many values as
    its statement has placeholders. *)
Lemma read_create_bind_every_placeholder (E : Engine) (req : request) :
  method req = "GET" \/ method req = "POST" ->
  snd (handleRest E req) = [] \/
  exists db sql ps tail,
    snd (handleRest E req) = Prepare db (VStr sql) :: Bind ps :: tail /\
    placeholders sql = length ps.
Proof.
  intros Hm.
  destruct (path_parts (pathname req)) as [|r [|db [|t more]]] eqn:Hp;
    try (left; apply handleRest_short; rewrite Hp; simpl; lia).
  rewrite (handleRest_switch E req r db t more Hp).
  destruct Hm as [Hm | Hm]; rewrite Hm; cbn [String.eqb Ascii.eqb Bool.eqb andb].
  - unfold rest_get. rewrite handleGet_status. cbn [Z.eqb Pos.eqb negb].
    destruct (select_db db) as [d|]; [|now left].
    right.
    run_cases E d
      (VStr (message (handleGet (searchParams req) t (nth_error more 0))))
      (or_empty (params (handleGet (searchParams req) t (nth_error more 0))))
      All others Hcalls Htail;
      do 4 eexists; (split; [reflexivity | apply handleGet_placeholders]).
  - unfold rest_post. destruct (body req) as [msg|data]; [now left|].
    destruct (invalid_data data) eqn:Hinv.
    + left. unfold handlePost. rewrite Hinv. reflexivity.
    + destruct data as [| |b|q| |s|items|props|name| |neg];
        try (left; unfold handlePost; rewrite Hinv; reflexivity).
      rewrite handlePost_status. cbn [Z.eqb Pos.eqb negb].
      destruct (select_db db) as [d|]; [|now left].
      right.
      run_cases E d (VStr (message (handlePost t (VObj props))))
                (or_empty (params (handlePost t (VObj props)))) Run
                others Hcalls Htail;
        do 4 eexists; (split; [reflexivity | apply handlePost_placeholders]).
Qed.

(** C1, evaluated where it fails.  DELETE /rest/mcw_db/users/123
    prepares a statement with one placeholder and binds no value; PATCH
    /rest/mcw_db/users/123 prepares a statement with two placeholders
    and never binds. *)
Theorem placeholders_left_unbound (E : Engine) :
  (exists tail,
     snd (handleRest E delete_user)
     = Prepare MCW_DB (VStr "DELETE FROM `users` WHERE id = ?") :: Bind [] :: tail) /\
  placeholders "DELETE FROM `users` WHERE id = ?" = 1 /\
  length (@nil value) = 0 /\
  snd (handleRest E patch_age)
  = [Prepare MCW_DB (VStr "UPDATE `users` SET age = ? WHERE id = ?")] /\
  placeholders "UPDATE `users` SET age = ? WHERE id = ?" = 2.
Proof.
  split; [|repeat split].
  change (handleRest E delete_user)
    with (match run_statement E MCW_DB
                  (VStr "DELETE FROM `users` WHERE id = ?") [] Run with
          | (inr _, calls) =>
              (Responds (Json (VObj [("message", VStr "Resource deleted successfully")])
                              200), calls)
          | (inl msg, calls) => (Responds (json_error msg 500), calls)
          end).
  run_cases E MCW_DB (VStr "DELETE FROM `users` WHERE id = ?") (@nil value) Run
            others Hcalls Htail; now exists others.
Qed.

(** *** Unknown database names *)

(** Case analysis on every test the goal branches on. *)
Ltac every_branch :=
  repeat match goal with
         | |- context [if ?b then _ else _] => destruct b
         | |- context [match ?x with _ => _ end] => destruct x
         end.

Lemma handleRest_unknown_calls (E : Engine) (req : request) (r db : string)
    (rest : list string) :
  path_parts (pathname req) = r :: db :: rest ->
  select_db db = None ->
  snd (handleRest E req) = [].
Proof.
  intros Hp Hdb. destruct rest as [|t more].
  - apply handleRest_short. rewrite Hp. simpl. lia.
  - rewrite (handleRest_switch E req r db t more Hp).
    unfold rest_get, rest_post, rest_update, rest_delete. rewrite Hdb.
    every_branch; reflexivity.
Qed.

Lemma raw_query_unknown_calls (E : Engine) (req : request) (r db : string)
    (rest : list string) :
  path_parts (pathname req) = r :: db :: rest ->
  select_db db = None ->
  snd (raw_query E req) = [].
Proof.
  intros Hp Hdb. unfold raw_query. rewrite Hp. cbn [length Nat.ltb Nat.leb nth].
  rewrite Hdb. every_branch; reflexivity.
Qed.

(** C8 as worded fails: a POST to an unknown database whose body is
    [null] is answered "Invalid data format". *)
Lemma invalid_body_reported_first :
  ~ unknown_db_as_stated quiet post_null_elsewhere.
Proof.
  intros H. specialize (H "other_db" eq_refl eq_refl).
  vm_compute in H. discriminate H.
Qed.

End DispatchFacts.

(** ** The bearer-token middleware *)
Module AuthFacts.
Import Js Rest Index Spec.

Lemma startsWith_spec (p s : string) :
  startsWith p s = true <-> exists t, s = p ++ t.
Proof.
  revert s. induction p as [|a p IH]; intros s; simpl.
  - split; [intros _; now exists s | reflexivity].
  - destruct s as [|b s].
    + split; [discriminate | intros [t Ht]; discriminate].
    + rewrite andb_true_iff, Ascii.eqb_eq, IH. split.
      * intros [-> [t ->]]. now exists t.
      * intros [t Ht]. injection Ht as -> ->. split; [reflexivity | now exists t].
Qed.

(** The derived token is the header with a leading [Bearer ] removed
    when there is one, and the header itself otherwise. *)
Lemma token_of_spec (h : string) :
  (forall t, h = "Bearer " ++ t -> token_of h = t) /\
  ((forall t, h <> "Bearer " ++ t) -> token_of h = h).
Proof.
  unfold token_of. split.
  - intros t ->. reflexivity.
  - intros H. destruct (startsWith "Bearer " h) eqn:Hs; [|reflexivity].
    apply startsWith_spec in Hs. destruct Hs as [t Ht]. now elim (H t).
Qed.

(** C10, as the code has it.  The middleware answers 401 Unauthorized
    exactly when the header is absent, or empty, or the derived token
    differs from the secret; otherwise it calls [next].  A header that
    is the bare non-empty secret, with no [Bearer ] in front, is
    accepted, as is [Bearer ] followed by the secret. *)
Theorem auth_denies_exactly (secret : string) (authHeader : option string) :
  (authMiddleware secret authHeader = Denied unauthorized <->
   authHeader = None \/ authHeader = Some "" \/
   exists h, authHeader = Some h /\ token_of h <> secret) /\
  (authMiddleware secret authHeader = Denied unauthorized \/
   authMiddleware secret authHeader = Next) /\
  (secret <> "" -> startsWith "Bearer " secret = false ->
   authMiddleware secret (Some secret) = Next) /\
  authMiddleware secret (Some ("Bearer " ++ secret)) = Next.
Proof.
  split; [|split; [|split]].
  - unfold authMiddleware. destruct authHeader as [h|].
    + destruct h as [|c h]; cbn [truthy_string negb].
      * split; [auto | reflexivity].
      * destruct (String.eqb_spec (token_of (String c h)) secret) as [Heq|Hne];
          cbn [negb]; split.
        -- discriminate.
        -- intros [H | [H | [h' [H Hne]]]]; try discriminate.
           injection H as <-. contradiction.
        -- intros _. right. right. now exists (String c h).
        -- reflexivity.
    + split; [auto | reflexivity].
  - unfold authMiddleware. destruct authHeader as [h|]; [|now left].
    destruct (negb (truthy_string h)); [now left|].
    destruct (negb (token_of h =? secret)); [now left | now right].
  - intros Hne Hs. unfold authMiddleware, token_of. rewrite Hs.
    destruct secret; [contradiction|]. cbn [truthy_string negb].
    now rewrite String.eqb_refl.
  - unfold authMiddleware. cbn [append truthy_string negb].
    change (token_of (String "B" ("earer " ++ secret))) with secret.
    now rewrite String.eqb_refl.
Qed.

(** The theorem at the secret [s3cret] sent bare. *)
Lemma auth_denies_exactly_witness :
  "s3cret" <> "" /\ startsWith "Bearer " "s3cret" = false /\
  authMiddleware "s3cret" (Some "s3cret") = Next.
Proof.
  split; [discriminate|]. split; [reflexivity|].
  exact (proj1 (proj2 (proj2 (auth_denies_exactly "s3cret" None)))
               ltac:(discriminate) eq_refl).
Defined.

(** C10 as worded fails: with an empty secret, an empty header is
    there and its token equals the secret, yet the answer is 401. *)
Lemma empty_header_is_denied : ~ auth_as_stated "" (Some "").
Proof.
  unfold auth_as_stated. intros [H _].
  destruct (H eq_refl) as [Habs | [h [Hh Hne]]]; [discriminate|].
  injection Hh as <-. now apply Hne.
Qed.

End AuthFacts.

(** ** More on identifiers and on the text of statements *)
Module StatementFacts.
Import Js Rest Index Spec Props JsFacts SanitizerFacts CompilerFacts DispatchFacts.

Lemma chars_app (s t : string) :
  list_ascii_of_string (s ++ t)
  = (list_ascii_of_string s ++ list_ascii_of_string t)%list.
Proof. induction s as [|c s IH]; simpl; [reflexivity | now rewrite IH]. Qed.

Lemma sanitize_keeps_safe (s : string) (c : ascii) :
  In c (list_ascii_of_string s) -> word_char c = true ->
  In c (list_ascii_of_string (sanitizeIdentifier s)).
Proof.
  intros Hin Hw. unfold sanitizeIdentifier. apply remove_all_kept.
  split; [assumption | now rewrite Hw].
Qed.

(** X1.  [sanitizeIdentifier] leaves a string unchanged exactly when the
    string is already a safe identifier, and returns the empty string
    exactly when the string has no letter, digit or underscore. *)
Theorem sanitize_fixed_and_empty (s : string) :
  (sanitizeIdentifier s = s <-> Forall safe_character (list_ascii_of_string s)) /\
  (sanitizeIdentifier s = "" <->
   forall c, In c (list_ascii_of_string s) -> ~ safe_character c).
Proof.
  split; split.
  - intros H. apply Forall_forall. intros c Hc. rewrite <- H in Hc.
    apply word_char_safe. now apply sanitized_chars in Hc.
  - intros H. unfold sanitizeIdentifier. apply remove_all_fixed.
    intros c Hc. rewrite Forall_forall in H.
    apply negb_false_iff, word_char_safe. now apply H.
  - intros H c Hc Hs. apply word_char_safe in Hs.
    pose proof (sanitize_keeps_safe s c Hc Hs) as Hin.
    rewrite H in Hin. contradiction.
  - intros H. induction s as [|c s IH]; [reflexivity|].
    unfold sanitizeIdentifier in *. cbn [remove_all].
    destruct (word_char c) eqn:Hw; cbn [negb].
    + exfalso. apply (H c); [now left | now apply word_char_safe].
    + apply IH. intros d Hd. apply H. now right.
Qed.

(** X2.  Sanitizing a concatenation is concatenating the sanitized
    parts, and sanitizing never makes a string longer. *)
Theorem sanitize_append (s t : string) :
  sanitizeIdentifier (s ++ t) = sanitizeIdentifier s ++ sanitizeIdentifier t /\
  (String.length (sanitizeIdentifier s) <= String.length s)%nat.
Proof.
  unfold sanitizeIdentifier. split.
  - induction s as [|c s IH]; [reflexivity|]. cbn [append remove_all].
    destruct (negb (word_char c)); [exact IH | cbn [append]; now rewrite IH].
  - induction s as [|c s IH]; [apply le_n|]. cbn [remove_all].
    destruct (negb (word_char c)); simpl; lia.
Qed.

(** *** The alphabet of statements *)

Lemma sql_characterb_spec (c : ascii) : sql_characterb c = true <-> sql_character c.
Proof.
  unfold sql_characterb, sql_character.
  rewrite orb_true_iff, word_char_safe, existsb_exists. split.
  - intros [H | [d [Hd Heq]]]; [now left|]. right.
    apply Ascii.eqb_eq in Heq. now subst.
  - intros [H | H]; [now left|]. right. exists c.
    split; [assumption | apply Ascii.eqb_refl].
Qed.

Lemma clean_app (s t : string) : clean (s ++ t) = clean s && clean t.
Proof. unfold clean. now rewrite chars_app, forallb_app. Qed.

Lemma clean_sanitized (s : string) : clean (sanitizeIdentifier s) = true.
Proof.
  unfold clean. apply forallb_forall. intros c Hc.
  apply sanitized_chars in Hc. unfold sql_characterb.
  destruct Hc as [_ ->]. reflexivity.
Qed.

Lemma clean_keyword (t : string) : clean (sanitizeKeyword t) = true.
Proof.
  unfold sanitizeKeyword. now rewrite !clean_app, clean_sanitized.
Qed.

Lemma clean_join (sep : string) (l : list string) :
  clean sep = true -> (forall x, In x l -> clean x = true) ->
  clean (join sep l) = true.
Proof.
  intros Hsep. induction l as [|x [|y l] IH]; intros H.
  - reflexivity.
  - apply H. now left.
  - change (join sep (x :: y :: l)) with (x ++ sep ++ join sep (y :: l)).
    rewrite !clean_app, Hsep, (H x) by now left.
    rewrite IH; [reflexivity|]. intros z Hz. apply H. now right.
Qed.

Lemma clean_where (id : option string) (q : URLSearchParams) :
  clean (where_clause (map fst (id_filter id)
                       ++ map filter_condition (filters q))%list) = true.
Proof.
  set (cs := (map fst (id_filter id) ++ map filter_condition (filters q))%list).
  assert (H : forall c, In c cs -> clean c = true).
  { intros c Hc. apply in_app_or in Hc. destruct Hc as [Hc|Hc].
    - unfold id_filter in Hc.
      destruct id as [i|]; [destruct (truthy_string i)|]; simpl in Hc;
        try contradiction.
      destruct Hc as [<-|[]]. reflexivity.
    - apply in_map_iff in Hc. destruct Hc as [e [<- _]].
      unfold filter_condition. now rewrite clean_app, clean_sanitized. }
  unfold where_clause. destruct cs as [|c cs']; [reflexivity|].
  rewrite clean_app. rewrite clean_join; [reflexivity | reflexivity | exact H].
Qed.

Lemma clean_order (q : URLSearchParams) : clean (order_clause q) = true.
Proof.
  unfold order_clause.
  destruct (get q "sort_by") as [sortBy|]; [|reflexivity].
  destruct (truthy_string sortBy); [|reflexivity].
  rewrite !clean_app, clean_sanitized.
  destruct (get q "order") as [o|]; [destruct (same_ignoring_case o "desc")|];
    reflexivity.
Qed.

Lemma clean_page (q : URLSearchParams) : clean (fst (page q)) = true.
Proof.
  unfold page.
  destruct (get q "limit") as [l|]; [|reflexivity].
  destruct (truthy_string l); [|reflexivity].
  destruct (get q "offset") as [o|]; [destruct (truthy_string o)|]; reflexivity.
Qed.

Lemma clean_columns (cols : list string) :
  clean (join ", " (map sanitizeIdentifier cols)) = true.
Proof.
  apply clean_join; [reflexivity|]. intros x Hx.
  apply in_map_iff in Hx. destruct Hx as [k [<- _]]. apply clean_sanitized.
Qed.

Lemma clean_forall (s : string) :
  clean s = true -> Forall sql_character (list_ascii_of_string s).
Proof.
  unfold clean. rewrite forallb_forall, Forall_forall.
  intros H c Hc. apply sql_characterb_spec. now apply H.
Qed.

(** X3.  Whatever the table name, the keys, the identifier and the
    values of a request are, the text of the statement each of the four
    handlers compiles contains only letters, digits, underscores and
    the characters of the templates (space, star, equals, question
    mark, backtick, comma, parentheses): no quote and no semicolon. *)
Theorem statements_use_sql_alphabet :
  (forall q t id,
     Forall sql_character (list_ascii_of_string (message (handleGet q t id)))) /\
  (forall t props,
     Forall sql_character
            (list_ascii_of_string (message (handlePost t (VObj props))))) /\
  (forall t id props,
     Forall sql_character
            (list_ascii_of_string (message (handleUpdate t id (VObj props))))) /\
  (forall t id,
     Forall sql_character (list_ascii_of_string (message (handleDelete t id)))).
Proof.
  split; [|split; [|split]].
  - intros q t id. apply clean_forall. rewrite handleGet_closed_form.
    unfold select_statement. cbn [message].
    now rewrite !clean_app, clean_keyword, clean_where, clean_order, clean_page.
  - intros t props. apply clean_forall. unfold handlePost.
    rewrite valid_object. cbn [message].
    rewrite !clean_app, clean_keyword, clean_columns.
    rewrite clean_join; [reflexivity | reflexivity |].
    intros x Hx. apply in_map_iff in Hx. now destruct Hx as [k [<- _]].
  - intros t id props. apply clean_forall. rewrite handleUpdate_statement.
    cbn [message]. rewrite !clean_app, clean_keyword.
    rewrite clean_join; [reflexivity | reflexivity |].
    intros x Hx. apply in_map_iff in Hx. destruct Hx as [k [<- Hk]].
    apply in_map_iff in Hk. destruct Hk as [k' [<- _]].
    now rewrite clean_app, clean_sanitized.
  - intros t id. apply clean_forall. unfold handleDelete. cbn [message].
    now rewrite !clean_app, clean_keyword.
Qed.

(** *** Backticks *)

Lemma count_outside_class (c : ascii) (s : string) :
  word_char c = false -> count_char c (sanitizeIdentifier s) = 0.
Proof.
  intros Hc. apply count_char_absent. intros H.
  apply sanitized_chars in H. destruct H as [_ H]. congruence.
Qed.

Lemma count_zero_join (c : ascii) (sep : string) (l : list string) :
  count_char c sep = 0 -> (forall x, In x l -> count_char c x = 0) ->
  count_char c (join sep l) = 0.
Proof.
  intros Hsep H. rewrite count_char_join by assumption.
  induction l as [|x l IH]; [reflexivity|]. simpl.
  rewrite (H x) by now left. apply IH. intros y Hy. apply H. now right.
Qed.

Lemma backticks_keyword (t : string) : count_char "`" (sanitizeKeyword t) = 2.
Proof.
  unfold sanitizeKeyword.
  now rewrite !count_char_app, count_outside_class.
Qed.

Lemma backticks_where (id : option string) (q : URLSearchParams) :
  count_char "`" (where_clause (map fst (id_filter id)
                                ++ map filter_condition (filters q))%list) = 0.
Proof.
  set (cs := (map fst (id_filter id) ++ map filter_condition (filters q))%list).
  assert (H : forall c, In c cs -> count_char "`" c = 0).
  { intros c Hc. apply in_app_or in Hc. destruct Hc as [Hc|Hc].
    - unfold id_filter in Hc.
      destruct id as [i|]; [destruct (truthy_string i)|]; simpl in Hc;
        try contradiction.
      destruct Hc as [<-|[]]. reflexivity.
    - apply in_map_iff in Hc. destruct Hc as [e [<- _]].
      unfold filter_condition. now rewrite count_char_app, count_outside_class. }
  unfold where_clause. destruct cs as [|c cs']; [reflexivity|].
  rewrite count_char_app, count_zero_join; [reflexivity | reflexivity | exact H].
Qed.

Lemma backticks_order (q : URLSearchParams) : count_char "`" (order_clause q) = 0.
Proof.
  unfold order_clause.
  destruct (get q "sort_by") as [sortBy|]; [|reflexivity].
  destruct (truthy_string sortBy); [|reflexivity].
  rewrite !count_char_app, count_outside_class by reflexivity.
  destruct (get q "order") as [o|]; [destruct (same_ignoring_case o "desc")|];
    reflexivity.
Qed.

Lemma backticks_page (q : URLSearchParams) : count_char "`" (fst (page q)) = 0.
Proof.
  unfold page.
  destruct (get q "limit") as [l|]; [|reflexivity].
  destruct (truthy_string l); [|reflexivity].
  destruct (get q "offset") as [o|]; [destruct (truthy_string o)|]; reflexivity.
Qed.

(** X4.  The statement of each handler contains exactly two backticks,
    the pair that quotes the table name: nothing in a request can open
    or close a quoted identifier. *)
Theorem statements_have_two_backticks :
  (forall q t id, count_char "`" (message (handleGet q t id)) = 2) /\
  (forall t props, count_char "`" (message (handlePost t (VObj props))) = 2) /\
  (forall t id props,
     count_char "`" (message (handleUpdate t id (VObj props))) = 2) /\
  (forall t id, count_char "`" (message (handleDelete t id)) = 2).
Proof.
  split; [|split; [|split]].
  - intros q t id. rewrite handleGet_closed_form. unfold select_statement.
    cbn [message].
    now rewrite !count_char_app, backticks_keyword, backticks_where,
      backticks_order, backticks_page.
  - intros t props. unfold handlePost. rewrite valid_object. cbn [message].
    rewrite !count_char_app, backticks_keyword.
    rewrite (count_zero_join "`" ", " (map sanitizeIdentifier (keys props))).
    + rewrite count_zero_join; [reflexivity | reflexivity |].
      intros x Hx. apply in_map_iff in Hx. now destruct Hx as [k [<- _]].
    + reflexivity.
    + intros x Hx. apply in_map_iff in Hx. destruct Hx as [k [<- _]].
      now apply count_outside_class.
  - intros t id props. rewrite handleUpdate_statement. cbn [message].
    rewrite !count_char_app, backticks_keyword.
    rewrite count_zero_join; [reflexivity | reflexivity |].
    intros x Hx. apply in_map_iff in Hx. destruct Hx as [k [<- Hk]].
    apply in_map_iff in Hk. destruct Hk as [k' [<- _]].
    now rewrite count_char_app, count_outside_class.
  - intros t id. unfold handleDelete. cbn [message].
    now rewrite !count_char_app, backticks_keyword.
Qed.

(** *** Values stay out of the text *)

Lemma filters_blank (q : URLSearchParams) :
  map filter_condition (filters (blank_values q))
  = map filter_condition (filters q).
Proof.
  induction q as [|[k v] q IH]; [reflexivity|].
  unfold blank_values, filters in *. cbn [map filter fst].
  destruct (includes reserved k) eqn:Hk; cbn [fst]; rewrite Hk; cbn [negb].
  - exact IH.
  - cbn [map]. now rewrite IH.
Qed.

Lemma get_blank (q : URLSearchParams) (k : string) :
  includes reserved k = true -> get (blank_values q) k = get q k.
Proof.
  intros Hk. induction q as [|[k' v] q IH]; [reflexivity|].
  unfold blank_values in *. cbn [map fst].
  destruct (includes reserved k') eqn:Hk'; cbn [get].
  - now rewrite IH.
  - destruct (String.eqb_spec k' k) as [->|_]; [congruence | exact IH].
Qed.

Lemma text_blank (q : URLSearchParams) (t : string) (id id' : option string) :
  map fst (id_filter id) = map fst (id_filter id') ->
  message (select_statement q t id)
  = message (select_statement (blank_values q) t id').
Proof.
  intros Hid. unfold select_statement. cbn [message].
  rewrite filters_blank, Hid.
  unfold order_clause, page. now rewrite !get_blank by reflexivity.
Qed.

(** X5.  Values never reach the text of a statement.  For a GET the
    text is the same when every filter value is blanked and the id is
    replaced by any other non-empty id; for a POST and an update it
    depends on the keys of the body only, and not on the id; for a
    DELETE it does not depend on the id. *)
Theorem text_ignores_values :
  (forall q t, message (handleGet q t None)
               = message (handleGet (blank_values q) t None)) /\
  (forall q t i j, i <> "" -> j <> "" ->
     message (handleGet q t (Some i))
     = message (handleGet (blank_values q) t (Some j))) /\
  (forall t p1 p2, keys p1 = keys p2 ->
     message (handlePost t (VObj p1)) = message (handlePost t (VObj p2))) /\
  (forall t i j p1 p2, keys p1 = keys p2 ->
     message (handleUpdate t i (VObj p1)) = message (handleUpdate t j (VObj p2))) /\
  (forall t i j, handleDelete t i = handleDelete t j).
Proof.
  split; [|split; [|split; [|split]]].
  - intros q t. rewrite !handleGet_closed_form. now apply text_blank.
  - intros q t i j Hi Hj. rewrite !handleGet_closed_form. apply text_blank.
    apply truthy_string_nonempty in Hi, Hj. unfold id_filter. now rewrite Hi, Hj.
  - intros t p1 p2 H. unfold handlePost. rewrite !valid_object. cbn [message].
    now rewrite H.
  - intros t i j p1 p2 H. rewrite !handleUpdate_statement. cbn [message].
    now rewrite H.
  - reflexivity.
Qed.

(** *** What a POST binds *)

Lemma own_property_later (k k' : string) (v : value) (props : list (string * value)) :
  k' <> k -> own_property ((k, v) :: props) k' = own_property props k'.
Proof.
  intros H. cbn [own_property]. apply not_eq_sym, String.eqb_neq in H.
  now rewrite H.
Qed.

Lemma lookup_all_keys (props : list (string * value)) :
  NoDup (keys props) ->
  map (get_property props) (keys props) = values props.
Proof.
  unfold keys, values. induction props as [|[k v] props IH]; intros Hnd.
  - reflexivity.
  - cbn [map fst snd] in *. inversion Hnd as [|? ? Hnotin Hnd']; subst. f_equal.
    + unfold get_property. cbn [own_property]. now rewrite String.eqb_refl.
    + rewrite <- (IH Hnd'). apply map_ext_in. intros k' Hk'.
      unfold get_property. rewrite own_property_later; [reflexivity|].
      intros ->. contradiction.
Qed.

(** X6.  When the keys of the body are distinct and already safe
    identifiers, a POST names them as columns and binds the object's
    values, in key order. *)
Theorem post_binds_values (t : string) (props : list (string * value)) :
  NoDup (keys props) ->
  (forall k, In k (keys props) -> sanitizeIdentifier k = k) ->
  handlePost t (VObj props)
  = {| status := 200;
       message := "INSERT INTO " ++ sanitizeKeyword t ++ " ("
                  ++ join ", " (keys props) ++ ") VALUES ("
                  ++ join ", " (map (fun _ => "?") (keys props)) ++ ")";
       params := Some (values props) |}.
Proof.
  intros Hnd Hsafe. unfold handlePost. rewrite valid_object.
  assert (Hcols : map sanitizeIdentifier (keys props) = keys props).
  { rewrite <- (map_id (keys props)) at 2. now apply map_ext_in. }
  now rewrite Hcols, lookup_all_keys.
Qed.

Lemma post_binds_values_witness :
  NoDup (keys [("name", VStr "John"); ("age", VNum (inject_Z 30))]) /\
  params (handlePost "users" (VObj [("name", VStr "John"); ("age", VNum (inject_Z 30))]))
  = Some [VStr "John"; VNum (inject_Z 30)].
Proof.
  assert (Hnd : NoDup (keys [("name", VStr "John"); ("age", VNum (inject_Z 30))])).
  { repeat constructor; simpl; intuition discriminate. }
  split; [exact Hnd|].
  rewrite (post_binds_values "users" _ Hnd).
  - reflexivity.
  - intros k [<- | [<- | []]]; reflexivity.
Defined.

(** X7.  A key that sanitizing changes into a name the object does not
    have, and that [Object.prototype] does not have either, loses its
    value: [undefined] is bound for its column. *)
Theorem post_loses_renamed_key (t k : string) (props : list (string * value)) :
  In k (keys props) ->
  own_property props (sanitizeIdentifier k) = None ->
  ~ In (sanitizeIdentifier k) object_prototype ->
  In VUndefined (or_empty (params (handlePost t (VObj props)))).
Proof.
  intros Hk Hown Hproto. unfold handlePost. rewrite valid_object.
  cbn [params or_empty]. apply in_map_iff. exists (sanitizeIdentifier k). split.
  - unfold get_property. rewrite Hown.
    destruct (existsb (String.eqb (sanitizeIdentifier k)) object_prototype) eqn:He;
      [|reflexivity].
    exfalso. apply Hproto. apply existsb_exists in He.
    destruct He as [x [Hx Heq]]. apply String.eqb_eq in Heq. now subst.
  - now apply in_map.
Qed.

Lemma post_loses_renamed_key_witness :
  In "first-name" (keys [("first-name", VStr "Ann")]) /\
  In VUndefined
     (or_empty (params (handlePost "users" (VObj [("first-name", VStr "Ann")])))).
Proof.
  split; [now left|].
  apply (post_loses_renamed_key "users" "first-name" [("first-name", VStr "Ann")]).
  - now left.
  - reflexivity.
  - simpl. intuition discriminate.
Defined.

End StatementFacts.

(** ** Path segments *)
Module PathFacts.
Import Js Rest Index Spec Props JsFacts.

Lemma split_nonempty (sep : ascii) (s : string) : split sep s <> [].
Proof.
  destruct s as [|c s]; simpl; [discriminate|].
  destruct (Ascii.eqb c sep); [discriminate|].
  destruct (split sep s); discriminate.
Qed.

Lemma split_free (sep : ascii) (s x : string) :
  In x (split sep s) -> ~ In sep (list_ascii_of_string x).
Proof.
  revert x. induction s as [|c s IH]; intros x Hx.
  - destruct Hx as [<-|[]]. intros [].
  - cbn [split] in Hx. destruct (Ascii.eqb_spec c sep) as [->|Hc].
    + destruct Hx as [<-|Hx]; [intros [] | now apply IH].
    + destruct (split sep s) as [|h t] eqn:Hs.
      * destruct Hx as [<-|[]]. simpl. intuition.
      * destruct Hx as [<-|Hx].
        -- simpl. intros [He|Hin]; [now apply Hc|].
           revert Hin. apply IH. now left.
        -- apply IH. now right.
Qed.

Lemma split_whole (sep : ascii) (s : string) :
  ~ In sep (list_ascii_of_string s) -> split sep s = [s].
Proof.
  induction s as [|c s IH]; intros H; [reflexivity|].
  cbn [split]. destruct (Ascii.eqb_spec c sep) as [->|Hc].
  - exfalso. apply H. now left.
  - rewrite IH; [reflexivity|]. intros Hin. apply H. now right.
Qed.

Lemma split_app (sep : ascii) (s t : string) :
  split sep (s ++ String sep t) = (split sep s ++ split sep t)%list.
Proof.
  induction s as [|c s IH].
  - simpl. now rewrite Ascii.eqb_refl.
  - cbn [append split]. destruct (Ascii.eqb c sep).
    + now rewrite IH.
    + rewrite IH. pose proof (split_nonempty sep s) as Hne.
      destruct (split sep s) as [|h l]; [contradiction | reflexivity].
Qed.

Lemma path_parts_app (s t : string) :
  path_parts (s ++ "/" ++ t) = (path_parts s ++ path_parts t)%list.
Proof.
  unfold path_parts. change ("/" ++ t) with (String "/" t).
  now rewrite split_app, filter_app.
Qed.

Lemma path_parts_segment (x : string) :
  x <> "" -> slash_free x -> path_parts x = [x].
Proof.
  intros Hne Hfree. unfold path_parts. rewrite split_whole by exact Hfree.
  destruct x; [contradiction | reflexivity].
Qed.

(** X8.  Every segment [handleRest] and the raw query route read from a
    path is non-empty and has no slash in it; a slash put before, after
    or between two parts of a path adds no segment. *)
Theorem path_segments (s t : string) :
  (forall x, In x (path_parts s) -> x <> "" /\ slash_free x) /\
  path_parts (s ++ "/" ++ t) = (path_parts s ++ path_parts t)%list /\
  path_parts ("/" ++ s) = path_parts s /\
  path_parts (s ++ "/") = path_parts s.
Proof.
  split; [|split; [exact (path_parts_app s t) | split]].
  - intros x Hx. unfold path_parts in Hx. apply filter_In in Hx.
    destruct Hx as [Hin Ht]. split.
    + intros ->. discriminate Ht.
    + exact (split_free "/" s x Hin).
  - reflexivity.
  - change (s ++ "/") with (s ++ "/" ++ "").
    rewrite path_parts_app. apply app_nil_r.
Qed.

(** X9.  Reading a path back: the segments of a path written as a slash
    followed by non-empty, slash-free segments joined by slashes are
    those segments. *)
Theorem path_parts_join (segments : list string) :
  (forall x, In x segments -> x <> "" /\ slash_free x) ->
  path_parts ("/" ++ join "/" segments) = segments.
Proof.
  intros H. change ("/" ++ join "/" segments) with ("" ++ "/" ++ join "/" segments).
  rewrite path_parts_app. cbn [path_parts split filter truthy_string app].
  induction segments as [|x [|y l] IH].
  - reflexivity.
  - apply path_parts_segment; apply H; now left.
  - change (join "/" (x :: y :: l)) with (x ++ "/" ++ join "/" (y :: l)).
    rewrite path_parts_app, IH.
    + rewrite path_parts_segment; [reflexivity | |]; apply H; now left.
    + intros z Hz. apply H. now right.
Qed.

Lemma path_parts_join_witness :
  (forall x, In x ["rest"; "mcw_db"; "users"; "123"] -> x <> "" /\ slash_free x) /\
  path_parts "/rest/mcw_db/users/123" = ["rest"; "mcw_db"; "users"; "123"].
Proof.
  assert (H : forall x, In x ["rest"; "mcw_db"; "users"; "123"] ->
                        x <> "" /\ slash_free x).
  { intros x [<- | [<- | [<- | [<- | []]]]]; (split; [discriminate|]);
      unfold slash_free; simpl; intuition discriminate. }
  split; [exact H|].
  exact (path_parts_join ["rest"; "mcw_db"; "users"; "123"] H).
Defined.

End PathFacts.

(** ** Answers of the dispatcher *)
Module AnswerFacts.
Import Js Rest Index Spec Props JsFacts SanitizerFacts CompilerFacts DispatchFacts.

Lemma handlePost_cases (t : string) (data : value) :
  handlePost t data = invalid_data_format \/ exists props, data = VObj props.
Proof.
  unfold handlePost. destruct (invalid_data data); [now left|].
  destruct data; try (now left). right. now eexists.
Qed.

Lemma handleUpdate_cases (t id : string) (data : value) :
  handleUpdate t id data = invalid_data_format \/ exists props, data = VObj props.
Proof.
  unfold handleUpdate. destruct (invalid_data data); [now left|].
  destruct data; try (now left). right. now eexists.
Qed.

Lemma handleUpdate_status (t id : string) (props : list (string * value)) :
  status (handleUpdate t id (VObj props)) = 200%Z.
Proof. reflexivity. Qed.

(** The outcomes of a statement, one goal each. *)
Ltac statement_cases E :=
  unfold run_statement;
  let Hbind := fresh "Hbind" in
  let Hexec := fresh "Hexec" in
  destruct (d1_bind E _) as [?msg|] eqn:Hbind;
  [ | destruct (d1_exec E _ _ _ _) as [?msg | ?v] eqn:Hexec ].

(** The paths through [handleRest], one goal each, with what was
    tested on the way in the context: the segments in [Hp], the method
    in [Hget], [Hpost], [Hput], [Hpatch] and [Hdel], the body in [Hb],
    the database in [Hdb], the id in [Hi]. *)
Ltac post_cases E Hdb :=
  match goal with
  | |- context [handlePost ?t ?data] =>
      let Hinv := fresh "Hinv" in
      destruct (handlePost_cases t data) as [Hinv | [?props ->]];
      [ rewrite Hinv; unfold invalid_data_format;
        cbn [status message Z.eqb Pos.eqb negb]
      | rewrite handlePost_status; cbn [Z.eqb Pos.eqb negb];
        destruct (select_db _) as [?d|] eqn:Hdb; [statement_cases E|] ]
  end.

Ltac update_cases E req Hb Hdb :=
  unfold rest_update; cbn [nth_error];
  try match goal with Hi : truthy_string _ = true |- _ => rewrite Hi; cbn [negb] end;
  try (destruct (body req) as [?msg|?data] eqn:Hb;
       [ | match goal with
           | |- context [handleUpdate ?t ?i ?data] =>
               let Hinv := fresh "Hinv" in
               destruct (handleUpdate_cases t i data) as [Hinv | [?props ->]];
               [ rewrite Hinv; unfold invalid_data_format;
                 cbn [status message Z.eqb Pos.eqb negb]
               | rewrite handleUpdate_status; cbn [Z.eqb Pos.eqb negb];
                 destruct (select_db _) as [?d|] eqn:Hdb; cbn [read_binding] ]
           end ]).

Ltac delete_cases E Hdb :=
  unfold rest_delete; cbn [nth_error];
  try match goal with Hi : truthy_string _ = true |- _ => rewrite Hi; cbn [negb] end;
  try (cbn [handleDelete status message Z.eqb Pos.eqb negb];
       destruct (select_db _) as [?d|] eqn:Hdb; [statement_cases E|]).

Ltac method_cases E req :=
  let Hget := fresh "Hget" in
  let Hpost := fresh "Hpost" in
  let Hput := fresh "Hput" in
  let Hpatch := fresh "Hpatch" in
  let Hdel := fresh "Hdel" in
  let Hb := fresh "Hb" in
  let Hdb := fresh "Hdb" in
  destruct (String.eqb_spec (method req) "GET") as [Hget|Hget];
  [ unfold rest_get; rewrite handleGet_status; cbn [Z.eqb Pos.eqb negb];
    destruct (select_db _) as [?d|] eqn:Hdb; [statement_cases E|]
  | destruct (String.eqb_spec (method req) "POST") as [Hpost|Hpost];
    [ unfold rest_post; destruct (body req) as [?msg|?data] eqn:Hb;
      [ | post_cases E Hdb ]
    | destruct (String.eqb_spec (method req) "PUT") as [Hput|Hput];
      [ cbn [orb]; update_cases E req Hb Hdb
      | destruct (String.eqb_spec (method req) "PATCH") as [Hpatch|Hpatch];
        [ cbn [orb]; update_cases E req Hb Hdb
        | cbn [orb];
          destruct (String.eqb_spec (method req) "DELETE") as [Hdel|Hdel];
          [ delete_cases E Hdb | ] ] ] ] ].

Ltac rest_cases E req :=
  let Hp := fresh "Hp" in
  let Hi := fresh "Hi" in
  destruct (path_parts (pathname req)) as [|?r [|?db [|?t [|?i ?more]]]] eqn:Hp;
  [ unfold handleRest; rewrite Hp; cbn [length Nat.ltb Nat.leb]
  | unfold handleRest; rewrite Hp; cbn [length Nat.ltb Nat.leb]
  | unfold handleRest; rewrite Hp; cbn [length Nat.ltb Nat.leb]
  | rewrite (handleRest_switch E req _ _ _ _ Hp); cbn [nth_error];
    method_cases E req
  | pose proof (fourth_part_truthy _ _ _ _ _ _ Hp) as Hi;
    rewrite (handleRest_switch E req _ _ _ _ Hp); cbn [nth_error];
    method_cases E req ].

Ltac show_answer :=
  cbn [fst snd status_of json_error unknown_database length] in *.

(** X10.  [handleRest] answers 405 exactly when the path has at least
    three segments and the method is none of GET, POST, PUT, PATCH and
    DELETE, written in capitals. *)
Theorem method_not_allowed (E : Engine) (req : request) :
  status_of (fst (handleRest E req)) = Some 405%Z <->
  (3 <= length (path_parts (pathname req)))%nat /\ ~ handled_method (method req).
Proof.
  unfold handled_method. rest_cases E req; show_answer;
    (split; [ try discriminate | intros [Hlen Hm]; try lia; try (exfalso; tauto) ]).
  all: try reflexivity.
  all: intros _; (split; [lia | tauto]).
Qed.

Lemma raw_query_answers (E : Engine) (req : request) :
  exists r, fst (raw_query E req) = Responds r.
Proof.
  unfold raw_query.
  destruct (length (path_parts (pathname req)) <? 2)%nat; [now eexists|].
  destruct (body req) as [msg|b]; [now eexists|].
  destruct (destructure b) as [e|[query ps]]; [now eexists|].
  destruct (negb (truthy query)); [now eexists|].
  destruct (select_db _) as [d|]; [|now eexists].
  destruct (spread ps) as [args|]; [|now eexists].
  statement_cases E; now eexists.
Qed.

(** X11.  [handleRest] lets an exception escape exactly when the body
    of a POST, or of a PUT or PATCH that has an id, is not valid JSON;
    the exception is the parser's.  The raw query route never lets one
    escape. *)
Theorem escaping_exceptions (E : Engine) (req : request) (msg : string) :
  (fst (handleRest E req) = Rejects msg <->
   body req = inl msg /\
   ((method req = "POST" /\ (3 <= length (path_parts (pathname req)))%nat) \/
    ((method req = "PUT" \/ method req = "PATCH") /\
     (4 <= length (path_parts (pathname req)))%nat))) /\
  fst (raw_query E req) <> Rejects msg.
Proof.
  split.
  - rest_cases E req; show_answer;
      (split;
       [ intros H; try discriminate H; injection H as <-;
         (split; [reflexivity|]); first [ left; split; [assumption | lia]
                                       | right; split; [tauto | lia] ]
       | intros [Hbody [[Hm Hlen] | [[Hm | Hm] Hlen]]];
         try lia; try congruence ]).
  - destruct (raw_query_answers E req) as [r Hr]. rewrite Hr. discriminate.
Qed.

(** X12.  A path with fewer than three segments is answered 400
    "Invalid path" whatever the method; a PUT, PATCH or DELETE on a
    path with exactly three segments is answered 400 "ID is required".
    In both cases no call is made on a database and the body is not
    looked at. *)
Theorem incomplete_paths (E : Engine) (req : request) :
  ((length (path_parts (pathname req)) < 3)%nat ->
   handleRest E req
   = (Responds (json_error
        "Invalid path. Expected format: /rest/{db_name}/{tableName}/{id?}" 400), []))
  /\
  (length (path_parts (pathname req)) = 3 ->
   (method req = "PUT" \/ method req = "PATCH" ->
    handleRest E req = (Responds (json_error "ID is required for updates" 400), []))
   /\
   (method req = "DELETE" ->
    handleRest E req = (Responds (json_error "ID is required for deletion" 400), []))).
Proof.
  split.
  - intros H. unfold handleRest. apply Nat.ltb_lt in H. now rewrite H.
  - intros H.
    destruct (path_parts (pathname req)) as [|r [|db [|t [|i more]]]] eqn:Hp;
      try discriminate H.
    rewrite (handleRest_switch E req r db t [] Hp). split.
    + intros [Hm | Hm]; rewrite Hm; reflexivity.
    + intros Hm. rewrite Hm. reflexivity.
Qed.

Lemma incomplete_paths_witness :
  length (path_parts "/rest/mcw_db/users") = 3 /\
  handleRest quiet (request_of "DELETE" "/rest/mcw_db/users" (inl "no body"))
  = (Responds (json_error "ID is required for deletion" 400), []).
Proof.
  split; [reflexivity|].
  exact (proj2 (proj2 (incomplete_paths quiet
                         (request_of "DELETE" "/rest/mcw_db/users" (inl "no body")))
                      eq_refl) eq_refl).
Defined.

(** The outcome [Hexec] found on the way against the one assumed in [H]. *)
Ltac same_outcome H :=
  match goal with
  | Hexec : d1_exec _ _ _ _ _ = ?x |- _ =>
      match type of H with
      | _ = ?y =>
          let Heq := fresh in
          assert (Heq : x = y) by (rewrite <- Hexec; exact H);
          first [ discriminate Heq | injection Heq as <-; reflexivity ]
      end
  end.

Ltac one_statement_leaf :=
  unfold one_statement; cbn [snd];
  first [ left; reflexivity
        | right; do 2 eexists; left; reflexivity
        | right; do 2 eexists; right; eexists; left; reflexivity
        | right; do 2 eexists; right; eexists; right; eexists; reflexivity ].

(** X13.  A request makes the calls of at most one statement, in order
    and each at most once: nothing, or [prepare], or [prepare] and
    [bind], or [prepare], [bind] and one execution.  This holds on the
    REST route and on the raw query route. *)
Theorem one_statement_per_request (E : Engine) (req : request) :
  one_statement (snd (handleRest E req)) /\
  one_statement (snd (raw_query E req)).
Proof.
  split.
  - rest_cases E req; one_statement_leaf.
  - unfold raw_query.
    destruct (length (path_parts (pathname req)) <? 2)%nat; [one_statement_leaf|].
    destruct (body req) as [msg|b]; [one_statement_leaf|].
    destruct (destructure b) as [e|[query ps]]; [one_statement_leaf|].
    destruct (negb (truthy query)); [one_statement_leaf|].
    destruct (select_db _) as [d|]; [|one_statement_leaf].
    destruct (spread ps) as [args|]; [|one_statement_leaf].
    statement_cases E; one_statement_leaf.
Qed.

(** X14.  When [handleRest] answers 200 or 201, the statement was
    prepared, bound and executed, and the database returned a result;
    201 is the answer to a POST only. *)
Theorem success_means_executed (E : Engine) (req : request) (s : Z) :
  status_of (fst (handleRest E req)) = Some s ->
  (s = 200 \/ s = 201)%Z ->
  (exists db sql ps mode v,
     snd (handleRest E req) = [Prepare db (VStr sql); Bind ps; Exec mode] /\
     d1_bind E ps = None /\
     d1_exec E db (VStr sql) ps mode = inr v) /\
  (s = 201%Z -> method req = "POST").
Proof.
  rest_cases E req; show_answer; intros Hs Hok;
    try discriminate Hs; injection Hs as <-;
    try (exfalso; destruct Hok as [Hok | Hok]; discriminate Hok).
  all: split; [ do 5 eexists; repeat split; eassumption
              | intros H; first [ discriminate H | assumption ] ].
Qed.

Lemma success_means_executed_witness :
  status_of (fst (handleRest quiet delete_user)) = Some 200%Z /\
  exists db sql ps mode v,
    snd (handleRest quiet delete_user) = [Prepare db (VStr sql); Bind ps; Exec mode] /\
    d1_bind quiet ps = None /\
    d1_exec quiet db (VStr sql) ps mode = inr v.
Proof.
  split; [reflexivity|].
  exact (proj1 (success_means_executed quiet delete_user 200 eq_refl
                  (or_introl eq_refl))).
Defined.

(** X15.  No PUT or PATCH request is answered with a success: the
    answer is a 400 or a 500, or the parser's exception escapes. *)
Theorem update_never_succeeds (E : Engine) (req : request) (s : Z) :
  method req = "PUT" \/ method req = "PATCH" ->
  status_of (fst (handleRest E req)) = Some s ->
  (s = 400 \/ s = 500)%Z.
Proof.
  intros Hm. rest_cases E req; show_answer; intros Hs;
    try discriminate Hs; injection Hs as <-; try (now left); try (now right).
  all: exfalso; destruct Hm as [Hm | Hm]; congruence.
Qed.

Lemma update_never_succeeds_witness :
  method patch_age = "PATCH" /\
  status_of (fst (handleRest quiet patch_age)) = Some 500%Z /\
  (500 = 400 \/ 500 = 500)%Z.
Proof.
  split; [reflexivity|]. split; [reflexivity|].
  exact (update_never_succeeds quiet patch_age 500 (or_intror eq_refl) eq_refl).
Defined.

(** X16.  What the database refuses is answered 500 with the
    database's own message: when the calls of a request end with an
    execution that throws, and when they end with a [bind] that
    throws. *)
Theorem database_errors_surface (E : Engine) (req : request) (db : database)
    (query : value) (ps : list value) :
  (forall mode msg,
     snd (handleRest E req) = [Prepare db query; Bind ps; Exec mode] ->
     d1_exec E db query ps mode = inl msg ->
     fst (handleRest E req) = Responds (json_error msg 500)) /\
  (snd (handleRest E req) = [Prepare db query; Bind ps] ->
   exists msg, d1_bind E ps = Some msg /\
               fst (handleRest E req) = Responds (json_error msg 500)).
Proof.
  split.
  - intros mode msg. rest_cases E req; show_answer; intros Hcalls Hthrow;
      try discriminate Hcalls; injection Hcalls as <- <- <- <-;
      same_outcome Hthrow.
  - rest_cases E req; show_answer; intros Hcalls;
      try discriminate Hcalls; injection Hcalls as <- <- <-.
    all: eexists; split; [eassumption | reflexivity].
Qed.

(** X17.  When the database returns a result, a GET answers 200 with
    that result as the body, a POST answers 201 with the message
    "Resource created successfully" and the result as [data], and a
    DELETE answers 200 with the message "Resource deleted successfully"
    alone. *)
Theorem success_answers (E : Engine) (req : request) (db : database)
    (query : value) (ps : list value) (mode : exec_mode) (v : value) :
  snd (handleRest E req) = [Prepare db query; Bind ps; Exec mode] ->
  d1_exec E db query ps mode = inr v ->
  (method req = "GET" -> fst (handleRest E req) = Responds (Json v 200)) /\
  (method req = "POST" ->
   fst (handleRest E req)
   = Responds (Json (VObj [("message", VStr "Resource created successfully");
                           ("data", v)]) 201)) /\
  (method req = "DELETE" ->
   fst (handleRest E req)
   = Responds (Json (VObj [("message", VStr "Resource deleted successfully")]) 200)).
Proof.
  rest_cases E req; show_answer; intros Hcalls Hret;
    try discriminate Hcalls; injection Hcalls as <- <- <- <-;
    (repeat split; intros Hm; try congruence); same_outcome Hret.
Qed.

Lemma success_answers_witness :
  snd (handleRest quiet delete_user)
  = [Prepare MCW_DB (VStr "DELETE FROM `users` WHERE id = ?"); Bind []; Exec Run] /\
  fst (handleRest quiet delete_user)
  = Responds (Json (VObj [("message", VStr "Resource deleted successfully")]) 200).
Proof.
  split; [reflexivity|].
  exact (proj2 (proj2 (success_answers quiet delete_user MCW_DB
                         (VStr "DELETE FROM `users` WHERE id = ?") [] Run
                         (VObj [("success", VBool true)]) eq_refl eq_refl))
               eq_refl).
Defined.

End AnswerFacts.

(** ** The raw query route and the middleware in front of the routes *)
Module RouteFacts.
Import Js Rest Index Spec Props JsFacts DispatchFacts AnswerFacts.

Lemma raw_query_long (E : Engine) (req : request) (r db : string) (rest : list string) :
  path_parts (pathname req) = r :: db :: rest ->
  raw_query E req
  = match body req with
    | inl msg => (Responds (json_error msg 500), [])
    | inr b =>
        match destructure b with
        | inl e => (Responds (json_error (error_message E e) 500), [])
        | inr (query, params) =>
            if negb (truthy query)
            then (Responds (json_error "Query is required" 400), [])
            else
              match select_db db with
              | None => (Responds unknown_database, [])
              | Some d =>
                  match spread params with
                  | None => (Responds (json_error (error_message E NotIterable) 500),
                             [Prepare d query])
                  | Some args =>
                      match run_statement E d query args All with
                      | (inr results, calls) => (Responds (Json results 200), calls)
                      | (inl msg, calls) => (Responds (json_error msg 500), calls)
                      end
                  end
              end
        end
    end.
Proof. intros Hp. unfold raw_query. rewrite Hp. reflexivity. Qed.

Lemma missing_property (props : list (string * value)) (k : string) :
  own_property props k = None ->
  existsb (String.eqb k) object_prototype = false ->
  get_property props k = VUndefined.
Proof. intros Hown Hp. unfold get_property. now rewrite Hown, Hp. Qed.

Lemma own_property_found (props : list (string * value)) (k : string) (v : value) :
  own_property props k = Some v -> get_property props k = v.
Proof. intros H. unfold get_property. now rewrite H. Qed.

(** X18.  The raw query route hands the body's [query] and [params] to
    the database as they are: an array [params] is bound element by
    element, an absent or [null] [params] binds nothing, and a [params]
    that is [true], a non-zero number or an object is answered 500
    after [prepare], nothing being bound. *)
Theorem raw_query_passes_through (E : Engine) (req : request) (r db : string)
    (rest : list string) (d : database) (props : list (string * value))
    (query : value) :
  path_parts (pathname req) = r :: db :: rest ->
  select_db db = Some d ->
  body req = inr (VObj props) ->
  own_property props "query" = Some query ->
  truthy query = true ->
  (forall ps, own_property props "params" = Some (VArr ps) ->
     exists tail, snd (raw_query E req) = Prepare d query :: Bind ps :: tail) /\
  (own_property props "params" = None \/ own_property props "params" = Some VNull ->
     exists tail, snd (raw_query E req) = Prepare d query :: Bind [] :: tail) /\
  (forall p, own_property props "params" = Some p -> not_iterable p ->
     raw_query E req
     = (Responds (json_error (error_message E NotIterable) 500), [Prepare d query])).
Proof.
  intros Hp Hdb Hb Hq Ht.
  rewrite (raw_query_long E req r db rest Hp), Hb. cbn [destructure].
  rewrite (own_property_found props "query" query Hq), Ht, Hdb. cbn [negb].
  split; [|split].
  - intros ps Hps. rewrite (own_property_found props "params" _ Hps).
    cbn [spread truthy negb].
    run_cases E d query ps All others Hcalls Htail; now exists others.
  - intros Hps.
    assert (Hspread : spread (get_property props "params") = Some []).
    { destruct Hps as [Hps | Hps].
      - now rewrite (missing_property props "params" Hps).
      - now rewrite (own_property_found props "params" _ Hps). }
    rewrite Hspread.
    run_cases E d query (@nil value) All others Hcalls Htail; now exists others.
  - intros p Hps Hni. rewrite (own_property_found props "params" _ Hps).
    destruct p as [| |[|]|q| |s|items|o|name| |neg]; try contradiction.
    + reflexivity.
    + unfold spread. cbn [truthy]. cbn [not_iterable] in Hni. now rewrite Hni.
    + reflexivity.
Qed.

Lemma raw_query_passes_through_witness :
  exists tail,
    snd (raw_query quiet
           (request_of "POST" "/query/mcw_db"
              (inr (VObj [("query", VStr "SELECT 1 WHERE ? = ?");
                          ("params", VArr [VStr "a"; VStr "b"])]))))
    = Prepare MCW_DB (VStr "SELECT 1 WHERE ? = ?")
      :: Bind [VStr "a"; VStr "b"] :: tail.
Proof.
  exact (proj1 (raw_query_passes_through quiet
                  (request_of "POST" "/query/mcw_db"
                     (inr (VObj [("query", VStr "SELECT 1 WHERE ? = ?");
                                 ("params", VArr [VStr "a"; VStr "b"])])))
                  "query" "mcw_db" [] MCW_DB _ (VStr "SELECT 1 WHERE ? = ?")
                  eq_refl eq_refl eq_refl eq_refl eq_refl)
               [VStr "a"; VStr "b"] eq_refl).
Defined.

(** X19.  On the raw query route with a database segment, a body that
    is not valid JSON is answered 500 with the parser's message, the
    body [null] is answered 500, and any other body that has no own
    truthy [query] (an array, a primitive, an object without it) is
    answered 400 "Query is required"; none of them reaches a database,
    known or not. *)
Theorem raw_query_refusals (E : Engine) (req : request) (r db : string)
    (rest : list string) :
  path_parts (pathname req) = r :: db :: rest ->
  (forall msg, body req = inl msg ->
     raw_query E req = (Responds (json_error msg 500), [])) /\
  (body req = inr VNull ->
     raw_query E req
     = (Responds (json_error (error_message E (DestructureNullish "query")) 500), []))
  /\
  (forall b, body req = inr b -> not_null b ->
     own_query b = None \/ (exists q, own_query b = Some q /\ truthy q = false) ->
     raw_query E req = (Responds (json_error "Query is required" 400), [])).
Proof.
  intros Hp. rewrite (raw_query_long E req r db rest Hp). split; [|split].
  - intros msg ->. reflexivity.
  - intros ->. reflexivity.
  - intros b -> Hnn Hq.
    destruct b as [| |bb|q| |s|items|props|name| |neg]; try contradiction;
      try reflexivity.
    cbn [destructure own_query] in *. destruct Hq as [Hq | [q [Hq Hf]]].
    + now rewrite (missing_property props "query" Hq).
    + now rewrite (own_property_found props "query" q Hq), Hf.
Qed.

Lemma raw_query_refusals_witness :
  path_parts "/query/mcw_db" = ["query"; "mcw_db"] /\
  raw_query quiet (request_of "POST" "/query/mcw_db" (inr (VArr [])))
  = (Responds (json_error "Query is required" 400), []).
Proof.
  split; [reflexivity|].
  exact (proj2 (proj2 (raw_query_refusals quiet
                         (request_of "POST" "/query/mcw_db" (inr (VArr [])))
                         "query" "mcw_db" [] eq_refl))
               (VArr []) eq_refl I (or_introl eq_refl)).
Defined.

(** *** The middleware in front *)

Lemma authMiddleware_next (secret : string) (authHeader : option string) :
  authMiddleware secret authHeader = Next ->
  exists h, authHeader = Some h /\ h <> "" /\ token_of h = secret.
Proof.
  unfold authMiddleware. destruct authHeader as [h|]; [|discriminate].
  destruct h as [|c h]; [discriminate|]. cbn [truthy_string negb].
  destruct (String.eqb_spec (token_of (String c h)) secret) as [Heq|Hne];
    [|discriminate].
  intros _. exists (String c h). repeat split; [discriminate | assumption].
Qed.

Lemma authMiddleware_cases (secret : string) (authHeader : option string) :
  authMiddleware secret authHeader = Next \/
  authMiddleware secret authHeader = Denied unauthorized.
Proof.
  unfold authMiddleware. destruct authHeader as [h|]; [|now right].
  destruct (negb (truthy_string h)); [now right|].
  destruct (negb (token_of h =? secret)); [now right | now left].
Qed.

Lemma protected_cases (secret : string)
    (handler : request -> outcome * list db_call) (req : request) :
  (protected secret handler req = handler req /\
   exists h, authorization req = Some h /\ h <> "" /\ token_of h = secret) \/
  protected secret handler req = (Responds unauthorized, []).
Proof.
  unfold protected.
  destruct (authMiddleware_cases secret (authorization req)) as [Hn | Hd].
  - left. rewrite Hn. split; [reflexivity | now apply authMiddleware_next].
  - right. now rewrite Hd.
Qed.

Lemma protected_denied (secret : string)
    (handler : request -> outcome * list db_call) (req : request) :
  (forall h, authorization req = Some h -> h = "" \/ token_of h <> secret) ->
  protected secret handler req = (Responds unauthorized, []).
Proof.
  intros H. destruct (protected_cases secret handler req)
    as [[_ [h [Hh [Hne Ht]]]] | Hd]; [|exact Hd].
  destruct (H h Hh); contradiction.
Qed.

(** X20.  Whatever [cors()] and the path matching of the framework do,
    a request to the application makes a call on a database only if its
    Authorization header is there, is not empty, and gives the secret
    as its token.  A request without such a header makes no call, and
    when [cors()] lets it through and a registered route takes it (any
    method on [/rest/*], POST on [/query/*]) it is answered 401, neither
    handler being run. *)
Theorem no_call_without_token (E : Engine) (H : Hono) (secret : string)
    (req : request) :
  (snd (fetch E H secret req) <> [] ->
   exists h, authorization req = Some h /\ h <> "" /\ token_of h = secret) /\
  ((forall h, authorization req = Some h -> h = "" \/ token_of h <> secret) ->
   snd (fetch E H secret req) = [] /\
   (cors H req = None -> routed H req ->
    fetch E H secret req = (Responds unauthorized, []))).
Proof.
  unfold fetch, routed. split.
  - destruct (cors H req); [intros Hc; now elim Hc|].
    destruct (matches H "/rest/*" (pathname req)).
    + destruct (protected_cases secret (handleRest E) req) as [[_ Hh] | ->];
        [intros _; exact Hh | intros Hc; now elim Hc].
    + destruct ((method req =? "POST") && matches H "/query/*" (pathname req)).
      * destruct (protected_cases secret (raw_query E) req) as [[_ Hh] | ->];
          [intros _; exact Hh | intros Hc; now elim Hc].
      * intros Hc. now elim Hc.
  - intros Hno. split.
    + destruct (cors H req); [reflexivity|].
      destruct (matches H "/rest/*" (pathname req));
        [now rewrite protected_denied|].
      destruct ((method req =? "POST") && matches H "/query/*" (pathname req));
        [now rewrite protected_denied | reflexivity].
    + intros -> [Hr | [Hm Hq]].
      * rewrite Hr. now apply protected_denied.
      * destruct (matches H "/rest/*" (pathname req));
          [now apply protected_denied|].
        rewrite Hm, Hq. cbn [String.eqb Ascii.eqb Bool.eqb andb].
        now apply protected_denied.
Qed.

Lemma no_call_without_token_witness :
  snd (fetch quiet plain_hono "s3cret"
         {| method := "GET"; pathname := "/rest/mcw_db/users"; searchParams := [];
            authorization := Some "Bearer s3cret"; body := inl "no body" |}) <> [] /\
  exists h, Some "Bearer s3cret" = Some h /\ h <> "" /\ token_of h = "s3cret".
Proof.
  assert (Hc : snd (fetch quiet plain_hono "s3cret"
         {| method := "GET"; pathname := "/rest/mcw_db/users"; searchParams := [];
            authorization := Some "Bearer s3cret"; body := inl "no body" |}) <> []).
  { discriminate. }
  split; [exact Hc|].
  exact (proj1 (no_call_without_token quiet plain_hono "s3cret" _) Hc).
Defined.

End RouteFacts.

(** ** What pagination binds *)
Module PaginationFacts.
Import Js Rest Index Spec Props JsFacts CompilerFacts.

Lemma parseInt_zero_start (rest : string) :
  match rest with
  | String x _ => Ascii.eqb x "x" = false /\ Ascii.eqb x "X" = false
  | EmptyString => True
  end ->
  parseInt (String "0" rest)
  = match read_digits 10 (String "0" rest) None with
    | None => VNaN
    | Some n => to_number false n
    end.
Proof.
  destruct rest as [|x r]; [reflexivity|]. intros [H1 H2].
  unfold parseInt. cbn [trim_start].
  change (is_space "0") with false. cbv iota. rewrite H1, H2. reflexivity.
Qed.

Lemma parseInt_digit_start (d : ascii) (rest : string) :
  is_digit d = true -> d <> "0"%char ->
  parseInt (String d rest)
  = match read_digits 10 (String d rest) None with
    | None => VNaN
    | Some n => to_number false n
    end.
Proof.
  destruct d as [[] [] [] [] [] [] [] []]; intros H H0;
    try (vm_compute in H; discriminate H); try (now elim H0); reflexivity.
Qed.

Lemma parseInt_no_digit (c : ascii) (rest : string) :
  is_space c = false -> c <> "-"%char -> c <> "+"%char ->
  digit_value 10 c = None ->
  parseInt (String c rest) = VNaN.
Proof.
  destruct c as [[] [] [] [] [] [] [] []]; intros Hs Hm Hp Hd;
    try (vm_compute in Hs; discriminate Hs);
    try (vm_compute in Hd; discriminate Hd);
    try (now elim Hm); try (now elim Hp); reflexivity.
Qed.

Lemma digit_not_x (x : ascii) :
  is_digit x = true -> Ascii.eqb x "x" = false /\ Ascii.eqb x "X" = false.
Proof.
  intros H. split.
  - destruct (Ascii.eqb_spec x "x") as [->|_]; [discriminate H | reflexivity].
  - destruct (Ascii.eqb_spec x "X") as [->|_]; [discriminate H | reflexivity].
Qed.

Lemma parseInt_decimal_start (d : ascii) (rest : string) :
  is_digit d = true ->
  match rest with
  | String x _ => Ascii.eqb x "x" = false /\ Ascii.eqb x "X" = false
  | EmptyString => True
  end ->
  parseInt (String d rest)
  = match read_digits 10 (String d rest) None with
    | None => VNaN
    | Some n => to_number false n
    end.
Proof.
  intros Hd Hrest. destruct (Ascii.eqb_spec d "0") as [->|Hne].
  - now apply parseInt_zero_start.
  - now apply parseInt_digit_start.
Qed.

Lemma read_digits_stop (radix : nat) (s : string) (c : ascii) (t : string)
    (acc : option Z) :
  digit_value radix c = None ->
  read_digits radix (s ++ String c t) acc = read_digits radix s acc.
Proof.
  intros Hc. revert acc. induction s as [|d s IH]; intros acc.
  - cbn [append read_digits]. now rewrite Hc.
  - cbn [append read_digits]. destruct (digit_value radix d); [apply IH | reflexivity].
Qed.

Lemma digit_value_decimal (c : ascii) :
  is_digit c = true ->
  digit_value 10 c = Some (code c - 48) /\ (code c - 48 < 10)%nat.
Proof.
  intros H. unfold digit_value. rewrite H.
  unfold is_digit, between in H. apply andb_true_iff in H. destruct H as [H1 H2].
  apply Nat.leb_le in H1, H2.
  assert (Hlt : (code c - 48 <? 10)%nat = true) by (apply Nat.ltb_lt; lia).
  rewrite Hlt. split; [reflexivity | lia].
Qed.

(** On digits [read_digits] is the positional value, and [k] digits
    after a number below 10^j give a number below 10^(j + k). *)
Lemma read_digits_decimal (s : string) (a : Z) (j : nat) :
  (forall c, In c (list_ascii_of_string s) -> is_digit c = true) ->
  (0 <= a < 10 ^ Z.of_nat j)%Z ->
  let n := fold_left (fun a c => (10 * a + Z.of_nat (code c - 48))%Z)
                     (list_ascii_of_string s) a in
  read_digits 10 s (Some a) = Some n /\
  (0 <= n < 10 ^ Z.of_nat (j + String.length s))%Z.
Proof.
  revert a j. induction s as [|c s IH]; intros a j Hs Ha.
  - cbn. rewrite Nat.add_0_r. now split.
  - cbn [read_digits list_ascii_of_string fold_left String.length].
    destruct (digit_value_decimal c) as [Hd Hlt]; [apply Hs; now left|].
    rewrite Hd. change (Z.of_nat 10) with 10%Z.
    replace (j + S (String.length s))%nat with (S j + String.length s)%nat by lia.
    apply IH; [intros x Hx; apply Hs; now right|].
    rewrite Nat2Z.inj_succ, Z.pow_succ_r by lia. lia.
Qed.

Lemma parseInt_decimal (s : string) :
  decimal s ->
  parseInt s = to_number false (decimal_value s) /\
  (0 <= decimal_value s < 10 ^ Z.of_nat (String.length s))%Z.
Proof.
  intros [Hne Hs]. destruct s as [|d s]; [contradiction|].
  rewrite parseInt_decimal_start.
  - cbn [read_digits].
    destruct (digit_value_decimal d) as [Hd Hlt]; [apply Hs; now left|].
    rewrite Hd. change (Z.of_nat 10 * 0 + Z.of_nat (code d - 48))%Z
      with (10 * 0 + Z.of_nat (code d - 48))%Z.
    destruct (read_digits_decimal s (10 * 0 + Z.of_nat (code d - 48)) 1)
      as [Hread Hbound]; [intros x Hx; apply Hs; now right | simpl; lia |].
    rewrite Hread. unfold decimal_value.
    cbn [list_ascii_of_string fold_left String.length]. split; [reflexivity|].
    exact Hbound.
  - apply Hs. now left.
  - destruct s as [|x s]; [exact I|]. apply digit_not_x. apply Hs. right. now left.
Qed.

Lemma to_number_exact (n : Z) :
  (0 <= n < 2 ^ 53)%Z -> to_number false n = VNum (inject_Z n).
Proof.
  intros Hn. unfold to_number, round_to_double.
  destruct (Z.eqb_spec n 0) as [->|Hne]; [reflexivity|].
  assert (H53 : (n <? 2 ^ 53)%Z = true) by (apply Z.ltb_lt; lia).
  rewrite H53.
  assert (Hinf : (2 ^ 1024 <=? n)%Z = false).
  { apply Z.leb_gt. apply Z.lt_trans with (2 ^ 53)%Z; [lia|].
    apply Z.pow_lt_mono_r; lia. }
  now rewrite Hinf.
Qed.

Lemma parseInt_trailing (s : string) (c : ascii) (t : string) :
  decimal s -> digit_value 10 c = None -> c <> "x"%char -> c <> "X"%char ->
  parseInt (s ++ String c t) = parseInt s.
Proof.
  intros [Hne Hs] Hc Hx HX. destruct s as [|d s]; [contradiction|].
  assert (Hd : is_digit d = true) by (apply Hs; now left).
  cbn [append]. rewrite !parseInt_decimal_start; try assumption.
  - change (String d (s ++ String c t)) with (String d s ++ String c t).
    now rewrite read_digits_stop.
  - destruct s as [|x s]; [exact I|]. apply digit_not_x. apply Hs. right. now left.
  - destruct s as [|x s]; cbn [append].
    + split; now apply Ascii.eqb_neq.
    + apply digit_not_x. apply Hs. right. now left.
Qed.

Lemma page_limit_only (q : URLSearchParams) (l : string) :
  get q "limit" = Some l -> l <> "" -> get q "offset" = None ->
  page q = (" LIMIT ?", [parseInt l]).
Proof.
  intros Hl Hne Ho. unfold page. apply truthy_string_nonempty in Hne.
  now rewrite Hl, Hne, Ho.
Qed.

(** X21.  A [limit] whose value does not start with a digit, a sign or
    white space is not refused: with no [offset], the statement still
    ends with [LIMIT ?] and the value bound for it is NaN. *)
Theorem limit_not_a_number (q : URLSearchParams) (t : string) (id : option string)
    (c : ascii) (rest : string) :
  get q "limit" = Some (String c rest) ->
  get q "offset" = None ->
  is_space c = false -> c <> "-"%char -> c <> "+"%char ->
  digit_value 10 c = None ->
  message (handleGet q t id)
  = message (handleGet (without_pagination q) t id) ++ " LIMIT ?" /\
  params (handleGet q t id)
  = Some (or_empty (params (handleGet (without_pagination q) t id)) ++ [VNaN])%list.
Proof.
  intros Hl Ho Hs Hm Hp Hd.
  destruct (handleGet_page q t id) as [Hmsg Hps].
  rewrite (page_limit_only q _ Hl ltac:(discriminate) Ho) in Hmsg, Hps.
  rewrite (parseInt_no_digit c rest Hs Hm Hp Hd) in Hps. now split.
Qed.

Lemma limit_not_a_number_witness :
  get [("limit", "abc")] "limit" = Some "abc" /\
  params (handleGet [("limit", "abc")] "users" None) = Some [VNaN].
Proof.
  split; [reflexivity|].
  exact (proj2 (limit_not_a_number [("limit", "abc")] "users" None "a" "bc"
                  eq_refl eq_refl eq_refl ltac:(discriminate) ltac:(discriminate)
                  eq_refl)).
Defined.

(** X22.  A [limit] made of decimal digits followed by other text is
    bound as if the text were not there: [parseInt] gives the double
    nearest to the integer the digits denote, which is that integer
    when there are at most 15 digits.  With no [offset], the parameters
    are those of the request without pagination followed by it. *)
Theorem limit_with_trailing_text (q : URLSearchParams) (t : string)
    (id : option string) (digits : string) (c : ascii) (rest : string) :
  get q "limit" = Some (digits ++ String c rest) ->
  get q "offset" = None ->
  decimal digits ->
  digit_value 10 c = None -> c <> "x"%char -> c <> "X"%char ->
  params (handleGet q t id)
  = Some (or_empty (params (handleGet (without_pagination q) t id))
          ++ [to_number false (decimal_value digits)])%list /\
  parseInt digits = to_number false (decimal_value digits) /\
  ((String.length digits <= 15)%nat ->
   to_number false (decimal_value digits) = VNum (inject_Z (decimal_value digits))).
Proof.
  intros Hl Ho Hdec Hc Hx HX.
  destruct (parseInt_decimal digits Hdec) as [Hparse Hbound].
  split; [|split; [exact Hparse|]].
  - destruct (handleGet_page q t id) as [_ Hps].
    assert (Hne : digits ++ String c rest <> "").
    { destruct digits; discriminate. }
    rewrite (page_limit_only q _ Hl Hne Ho) in Hps.
    now rewrite (parseInt_trailing digits c rest Hdec Hc Hx HX), Hparse in Hps.
  - intros Hlen. apply to_number_exact. split; [lia|].
    apply Z.lt_le_trans with (10 ^ Z.of_nat (String.length digits))%Z; [lia|].
    apply Z.le_trans with (10 ^ 15)%Z; [|vm_compute; discriminate].
    apply Z.pow_le_mono_r; lia.
Qed.

Lemma limit_with_trailing_text_witness :
  decimal "10" /\
  params (handleGet [("limit", "10 rows")] "users" None)
  = Some [VNum (inject_Z 10)].
Proof.
  assert (Hdec : decimal "10").
  { split; [discriminate|]. intros c [<- | [<- | []]]; reflexivity. }
  split; [exact Hdec|].
  exact (proj1 (limit_with_trailing_text [("limit", "10 rows")] "users" None
                  "10" " " "rows"
                  eq_refl eq_refl Hdec eq_refl ltac:(discriminate) ltac:(discriminate))).
Defined.

End PaginationFacts.

(** ** What the handlers do not read *)
Module IndependenceFacts.
Import Js Rest Index Spec Props JsFacts DispatchFacts AuthFacts.

Lemma handleRest_path (E : Engine) (req : request) :
  handleRest E req
  = match path_parts (pathname req) with
    | r :: db :: t :: more =>
        if method req =? "GET" then rest_get E req db t (nth_error more 0)
        else if method req =? "POST" then rest_post E req db t
        else if (method req =? "PUT") || (method req =? "PATCH")
             then rest_update E req db t (nth_error more 0)
        else if method req =? "DELETE" then rest_delete E req db t (nth_error more 0)
        else (Responds (json_error "Method not allowed" 405), [])
    | _ => (Responds (json_error
              "Invalid path. Expected format: /rest/{db_name}/{tableName}/{id?}" 400),
            [])
    end.
Proof.
  unfold handleRest.
  destruct (path_parts (pathname req)) as [|r [|db [|t more]]]; reflexivity.
Qed.

(** X23.  A GET and a DELETE do not read the body, and a POST, PUT,
    PATCH or DELETE does not read the query string: the answer and the
    database calls are the same whatever these are. *)
Theorem unread_parts (E : Engine) (req : request) :
  (method req = "GET" \/ method req = "DELETE" ->
   forall b, handleRest E (with_body req b) = handleRest E req) /\
  (method req <> "GET" ->
   forall q, handleRest E (with_query req q) = handleRest E req).
Proof.
  split.
  - intros Hm b. rewrite !handleRest_path. cbn [with_body pathname method].
    destruct (path_parts (pathname req)) as [|r [|db [|t more]]]; try reflexivity.
    destruct Hm as [Hm | Hm]; rewrite Hm; reflexivity.
  - intros Hm q. rewrite !handleRest_path. cbn [with_query pathname method].
    destruct (path_parts (pathname req)) as [|r [|db [|t more]]]; try reflexivity.
    apply String.eqb_neq in Hm. rewrite Hm. reflexivity.
Qed.

Lemma unread_parts_witness :
  method delete_user = "DELETE" /\
  handleRest quiet (with_body delete_user (inr VNull)) = handleRest quiet delete_user.
Proof.
  split; [reflexivity|].
  exact (proj1 (unread_parts quiet delete_user) (or_intror eq_refl) (inr VNull)).
Defined.

(** X24.  [handleRest] reads the second, third and fourth segments of
    the path only: two paths that agree on these (the fourth being
    absent in both or present in both) get the same answer, whatever
    their first segment and the segments after the fourth are. *)
Theorem unread_segments (E : Engine) (req : request) (p1 p2 : string)
    (r1 r2 db t : string) (more1 more2 : list string) :
  path_parts p1 = r1 :: db :: t :: more1 ->
  path_parts p2 = r2 :: db :: t :: more2 ->
  nth_error more1 0 = nth_error more2 0 ->
  handleRest E (with_path req p1) = handleRest E (with_path req p2).
Proof.
  intros H1 H2 Hid. rewrite !handleRest_path. cbn [with_path pathname method].
  rewrite H1, H2, Hid.
  unfold rest_get, rest_post, rest_update, rest_delete. reflexivity.
Qed.

Lemma unread_segments_witness :
  path_parts "/rest/mcw_db/users/123" = ["rest"; "mcw_db"; "users"; "123"] /\
  path_parts "/api/mcw_db/users/123/extra" = ["api"; "mcw_db"; "users"; "123"; "extra"] /\
  handleRest quiet (with_path delete_user "/rest/mcw_db/users/123")
  = handleRest quiet (with_path delete_user "/api/mcw_db/users/123/extra").
Proof.
  split; [reflexivity|]. split; [reflexivity|].
  exact (unread_segments quiet delete_user
           "/rest/mcw_db/users/123" "/api/mcw_db/users/123/extra"
           "rest" "api" "mcw_db" "users" ["123"] ["123"; "extra"]
           eq_refl eq_refl eq_refl).
Defined.

(** *** A secret that starts with the prefix *)

Lemma length_append (s t : string) :
  String.length (s ++ t) = String.length s + String.length t.
Proof. induction s as [|c s IH]; simpl; [reflexivity | now rewrite IH]. Qed.

(** X25.  Exactly one leading [Bearer ] is removed from the header.  So
    when the secret itself starts with [Bearer ], the header that is
    the bare secret is refused, and the header that is [Bearer ]
    followed by the secret is accepted. *)
Theorem secret_with_prefix (x : string) :
  authMiddleware ("Bearer " ++ x) (Some ("Bearer " ++ x)) = Denied unauthorized /\
  authMiddleware ("Bearer " ++ x) (Some ("Bearer " ++ "Bearer " ++ x)) = Next.
Proof.
  assert (Htoken : forall y, token_of ("Bearer " ++ y) = y) by reflexivity.
  assert (Htruthy : forall y, truthy_string ("Bearer " ++ y) = true) by reflexivity.
  unfold authMiddleware. rewrite !Htruthy, !Htoken. cbn [negb]. split.
  - destruct (String.eqb_spec x ("Bearer " ++ x)) as [Heq|_]; [|reflexivity].
    exfalso. apply (f_equal String.length) in Heq.
    rewrite length_append in Heq. simpl in Heq. lia.
  - now rewrite String.eqb_refl.
Qed.

End IndependenceFacts.

(** ** Requests to an unknown database *)
Module LookupFacts.
Import Js Rest Index Spec Props JsFacts CompilerFacts DispatchFacts AnswerFacts
  RouteFacts.

(** A body that [handlePost] or [handleUpdate] refused is not an
    object. *)
Ltac refused_object Hobj :=
  match goal with
  | Hb : body _ = inr _, Hinv : _ = invalid_data_format |- _ =>
      rewrite Hb in Hobj; injection Hobj as ->; apply (f_equal status) in Hinv;
      first [rewrite handlePost_status in Hinv | rewrite handleUpdate_status in Hinv];
      discriminate Hinv
  end.

Ltac lookup_reached :=
  split;
  [ discriminate
  | first [ left; assumption
          | right; left; split; [assumption | eexists; eassumption]
          | right; right; left;
            split; [tauto | split; [simpl; lia | eexists; eassumption]]
          | right; right; right; split; [assumption | simpl; lia] ] ].

Ltac lookup_leaf :=
  show_answer; unfold reaches_lookup; cbn [length];
  try congruence;
  (split;
   [ intros H; try discriminate H; lookup_reached
   | intros [Hne Hr]; try (now elim Hne);
     destruct Hr as [Hm | [[Hm [props' Hb']] | [[Hm [Hlen [props' Hb']]] | [Hm Hlen]]]];
     try reflexivity; try congruence; try (simpl in Hlen; lia);
     try (exfalso; tauto); try refused_object Hb' ]).

Lemma rest_lookup (E : Engine) (req : request) (r db : string) (rest : list string) :
  path_parts (pathname req) = r :: db :: rest ->
  select_db db = None ->
  (fst (handleRest E req) = Responds unknown_database <-> reaches_lookup req rest).
Proof.
  intros Hp Hdb. destruct rest as [|t [|i more]].
  - unfold handleRest. rewrite Hp. cbn [length Nat.ltb Nat.leb]. lookup_leaf.
  - rewrite (handleRest_switch E req _ _ _ _ Hp). cbn [nth_error].
    method_cases E req; lookup_leaf.
  - pose proof (fourth_part_truthy _ _ _ _ _ _ Hp) as Hi.
    rewrite (handleRest_switch E req _ _ _ _ Hp). cbn [nth_error].
    method_cases E req; lookup_leaf.
Qed.

Ltac earlier_leaf :=
  show_answer; unfold answered_earlier; try congruence;
  first [ left; reflexivity
        | right; left; reflexivity
        | right; right; left; reflexivity
        | right; right; right; left; reflexivity
        | right; right; right; right; left; reflexivity
        | right; right; right; right; right; left; reflexivity
        | right; right; right; right; right; right;
          eexists; split; [eassumption | reflexivity] ].

Lemma rest_lookup_or_earlier (E : Engine) (req : request) (r db : string)
    (rest : list string) :
  path_parts (pathname req) = r :: db :: rest ->
  select_db db = None ->
  fst (handleRest E req) = Responds unknown_database \/
  answered_earlier req (fst (handleRest E req)).
Proof.
  intros Hp Hdb. destruct rest as [|t [|i more]].
  - unfold handleRest. rewrite Hp. cbn [length Nat.ltb Nat.leb]. earlier_leaf.
  - rewrite (handleRest_switch E req _ _ _ _ Hp). cbn [nth_error].
    method_cases E req; earlier_leaf.
  - pose proof (fourth_part_truthy _ _ _ _ _ _ Hp) as Hi.
    rewrite (handleRest_switch E req _ _ _ _ Hp). cbn [nth_error].
    method_cases E req; earlier_leaf.
Qed.

Lemma raw_lookup (E : Engine) (req : request) (r db : string) (rest : list string) :
  path_parts (pathname req) = r :: db :: rest ->
  select_db db = None ->
  (fst (raw_query E req) = Responds unknown_database <-> raw_reaches_lookup req) /\
  (fst (raw_query E req) = Responds unknown_database \/
   raw_answered_earlier E req (fst (raw_query E req))).
Proof.
  intros Hp Hdb. rewrite (raw_query_long E req r db rest Hp).
  unfold raw_reaches_lookup, raw_answered_earlier.
  destruct (body req) as [msg|b] eqn:Hb.
  - cbn [fst]. split.
    + split; [discriminate | intros [b [q [ps [H _]]]]; discriminate H].
    + right. left. now exists msg.
  - destruct (destructure b) as [e|[query ps]] eqn:Hd.
    + cbn [fst]. split.
      * split; [intros H | intros [b' [q [ps [H [Hd' _]]]]]].
        -- destruct b; try discriminate Hd. all: discriminate H.
        -- injection H as <-. congruence.
      * right. right. left.
        destruct b; try discriminate Hd; injection Hd as <-; reflexivity.
    + destruct (truthy query) eqn:Ht; cbn [negb].
      * rewrite Hdb. cbn [fst]. split; [|now left].
        split; [intros _ | reflexivity]. now exists b, query, ps.
      * cbn [fst]. split; [|now right; right; right].
        split; [discriminate|].
        intros [b' [q [ps' [H [Hd' Ht']]]]]. injection H as <-.
        rewrite Hd in Hd'. injection Hd' as <- <-. congruence.
Qed.

(** C8, as the code has it.  When the [{db}] segment is not one of the
    three names, no request makes a call on a database: on the REST
    handler, on the raw query handler, and through the application
    whatever the framework does.  [handleRest] answers 400 "Unknown
    database name" exactly when the request reaches the database
    lookup: the path has a table segment and the request is a GET, a
    POST whose body is an object, a PUT or PATCH with an id whose body
    is an object, or a DELETE with an id; otherwise it answers 400
    "Invalid path", 400 "Invalid data format", 400 "ID is required for
    updates" or "for deletion", or 405, or the exception of the JSON
    parser escapes.  The raw query route answers 400 "Unknown database
    name" exactly when the body is valid JSON other than [null] with a
    truthy [query]; otherwise it answers 500 with the parser's message,
    500 for [null], or 400 "Query is required". *)
Theorem unknown_database_no_call (E : Engine) (req : request) (r db : string)
    (rest : list string) :
  path_parts (pathname req) = r :: db :: rest ->
  select_db db = None ->
  snd (handleRest E req) = [] /\
  snd (raw_query E req) = [] /\
  (forall H secret, snd (fetch E H secret req) = []) /\
  (fst (handleRest E req) = Responds unknown_database <-> reaches_lookup req rest) /\
  (fst (handleRest E req) = Responds unknown_database \/
   answered_earlier req (fst (handleRest E req))) /\
  (fst (raw_query E req) = Responds unknown_database <-> raw_reaches_lookup req) /\
  (fst (raw_query E req) = Responds unknown_database \/
   raw_answered_earlier E req (fst (raw_query E req))).
Proof.
  intros Hp Hdb.
  pose proof (handleRest_unknown_calls E req r db rest Hp Hdb) as Hrest.
  pose proof (raw_query_unknown_calls E req r db rest Hp Hdb) as Hraw.
  split; [exact Hrest|]. split; [exact Hraw|]. split.
  { intros H secret. unfold fetch, protected.
    destruct (cors H req); [reflexivity|].
    destruct (matches H "/rest/*" (pathname req)).
    - destruct (authMiddleware secret (authorization req)); [reflexivity | exact Hrest].
    - destruct ((method req =? "POST") && matches H "/query/*" (pathname req));
        [|reflexivity].
      destruct (authMiddleware secret (authorization req)); [reflexivity | exact Hraw]. }
  split; [exact (rest_lookup E req r db rest Hp Hdb)|].
  split; [exact (rest_lookup_or_earlier E req r db rest Hp Hdb)|].
  exact (raw_lookup E req r db rest Hp Hdb).
Qed.

(** The theorem at GET /rest/other_db/users. *)
Lemma unknown_database_no_call_witness :
  path_parts "/rest/other_db/users" = ["rest"; "other_db"; "users"] /\
  select_db "other_db" = None /\
  snd (handleRest quiet (request_of "GET" "/rest/other_db/users" (inl "no body"))) = [] /\
  fst (handleRest quiet (request_of "GET" "/rest/other_db/users" (inl "no body")))
  = Responds unknown_database.
Proof.
  split; [reflexivity|]. split; [reflexivity|].
  destruct (unknown_database_no_call quiet
              (request_of "GET" "/rest/other_db/users" (inl "no body"))
              "rest" "other_db" ["users"] eq_refl eq_refl)
    as [Hcalls [_ [_ [Hget _]]]].
  split; [exact Hcalls|].
  apply Hget. split; [discriminate | now left].
Defined.

End LookupFacts.
